(** * DCGAN training agent: a shallow embedding of [agents/dcgan.py]

    The file models the class [DCGANAgent]: its constructor, the
    checkpoint load/save pair, the epoch loop, the per-step adversarial
    update and the shutdown path.  Python objects are records, the methods
    are programs in a state-and-exception monad over the pair
    (agent object, outside world), and the outside world holds what the
    methods touch besides [self]: the checkpoint directory, the console,
    the summary writer, the random generator and a pending Ctrl-C.

    Tensors are kept symbolic: a tensor is the expression that produced
    it, so that the autograd graph (and the places where [detach] cuts
    it) can be inspected.  Network weights and optimiser states are
    opaque values of two abstract types. *)

From stdpp Require Import gmap strings list fin_maps.
From Stdlib Require Import ZArith QArith Lia.

Open Scope string_scope.
Open Scope list_scope.
Open Scope Z_scope.

(** ** Exceptions *)

(** The Python exception classes that occur in the agent. *)
Inductive exn : Type :=
| KeyboardInterrupt
| AttributeError (attr : string)
| UnboundLocalError (name : string)
| FileNotFoundError
| PermissionError
| SameFileError
| EOFError.

(** [except OSError]: the subclass test.  [FileNotFoundError] and
    [PermissionError] derive from [OSError]; so does [shutil.SameFileError]
    (through [shutil.Error]).  [EOFError], [AttributeError],
    [UnboundLocalError] and [KeyboardInterrupt] do not. *)
Definition is_OSError (e : exn) : bool :=
  match e with
  | FileNotFoundError | PermissionError | SameFileError => true
  | KeyboardInterrupt | AttributeError _ | UnboundLocalError _ | EOFError => false
  end.

Definition is_KeyboardInterrupt (e : exn) : bool :=
  match e with
  | KeyboardInterrupt => true
  | _ => false
  end.

Inductive result (A : Type) : Type :=
| Ok (a : A)
| Raise (e : exn).
Arguments Ok {A} a.
Arguments Raise {A} e.

(** ** Random generator *)

(** State of torch's global generator: the seed it was last given
    ([None] while it still runs on its start-up entropy) and the number of
    draws since. *)
Record rng : Type := mkRng { rng_seed : option Z; rng_draws : nat }.

Definition rng_next (r : rng) : rng :=
  {| rng_seed := rng_seed r; rng_draws := S (rng_draws r) |}.

Definition rng_manual_seed (s : Z) : rng :=
  {| rng_seed := Some s; rng_draws := 0%nat |}.

(** ** Configuration *)

Record config : Type := mkConfig {
  batch_size_cfg : Z;
  g_input_size : Z;
  learning_rate : Q;
  beta1 : Q;
  beta2 : Q;
  cuda_cfg : bool;
  seed : option Z;
  checkpoint_dir : string;
  checkpoint_file : string;
  summary_dir : string;
  max_epoch : Z;
  async_loading : bool
}.

(** ** Tensors, modules, checkpoints *)

Inductive net_id : Type := NetG | NetD.

Definition net_id_eqb (a b : net_id) : bool :=
  match a, b with
  | NetG, NetG | NetD, NetD => true
  | _, _ => false
  end.

Section Tensors.
(** [P]: the parameters of a network (a [state_dict]); [O]: the state
    of an optimiser.  Both are opaque to the agent. *)
Context {P O : Type}.

(** A tensor is the expression that computed it. *)
Inductive tensor : Type :=
| Batch (i : nat)                          (* i-th batch of the loader *)
| Randn (r : rng) (shape : list Z)         (* torch.randn(shape) drawn at generator state r *)
| Full (shape : list Z) (v : Z)            (* torch.full(shape, v) *)
| Forward (n : net_id) (w : P) (x : tensor) (* net(x) under weights w *)
| Detach (x : tensor)                      (* x.detach() *)
| BCE (out target : tensor)                (* self.loss(out, target) *)
| Plus (a b : tensor)                      (* a + b *)
| Mean (x : tensor).                       (* x.mean().item() *)

(** Autograd: does back-propagation from [t] reach the parameters of
    network [n]?  [Detach] cuts the graph, [.item()] leaves it, and leaves
    carry no parameters. *)
Fixpoint reaches (n : net_id) (t : tensor) : bool :=
  match t with
  | Batch _ | Randn _ _ | Full _ _ => false
  | Forward m _ x => net_id_eqb m n || reaches n x
  | Detach _ | Mean _ => false
  | BCE out target => reaches n out || reaches n target
  | Plus a b => reaches n a || reaches n b
  end.

(** An [nn.Module]: its weights, the gradient buffer (the losses whose
    gradient has been accumulated since the last [zero_grad]) and the
    train/eval flag. *)
Record module : Type := mkModule {
  weights : P;
  grad : list tensor;
  training : bool
}.

Definition zero_grad (m : module) : module :=
  {| weights := weights m; grad := []; training := training m |}.

Definition state_dict (m : module) : P := weights m.

Definition load_state_dict (sd : P) (m : module) : module :=
  {| weights := sd; grad := grad m; training := training m |}.

Definition set_weights (w : P) (m : module) : module :=
  {| weights := w; grad := grad m; training := training m |}.

Definition train_mode (m : module) : module :=
  {| weights := weights m; grad := grad m; training := true |}.

(** [loss.backward()] seen from one module: the loss joins the
    gradient buffer when the graph reaches the module's parameters. *)
Definition accumulate (n : net_id) (loss : tensor) (m : module) : module :=
  if reaches n loss
  then {| weights := weights m; grad := grad m ++ [loss]; training := training m |}
  else m.

(** The dictionary written by [save_checkpoint]. *)
Record checkpoint : Type := mkCheckpoint {
  epoch : Z;
  iteration : Z;
  G_state_dict : P;
  G_optimizer : O;
  D_state_dict : P;
  D_optimizer : O
}.

(** What a path of the checkpoint directory holds: a pickled
    checkpoint, a file opened for writing and not yet written
    (unpickling it raises [EOFError]), or a file that cannot be opened
    ([PermissionError]). *)
Inductive file : Type :=
| Pickled (c : checkpoint)
| Truncated
| Unreadable.

(** The data loader: the batches it yields in an epoch, each named by
    its number, and the count it announces. *)
Record dataloader : Type := mkLoader {
  loader : list nat;
  num_iterations : Z
}.

(** Modelled from the spec: [utils.metrics.AverageMeter] is not part of
    the sources at hand.  Section 4.3: [update(value)] appends one
    observation and [val] is the latest raw observation.  The meter is
    kept as the list of its observations, oldest first. *)
Definition AverageMeter : Type := list tensor.
Definition meter_new : AverageMeter := [].
Definition meter_update (v : tensor) (m : AverageMeter) : AverageMeter := m ++ [v].
Definition meter_val (m : AverageMeter) : tensor := List.last m (Full [] 0).
Definition meter_count (m : AverageMeter) : nat := length m.

End Tensors.

Arguments tensor : clear implicits.
Arguments module : clear implicits.
Arguments checkpoint : clear implicits.
Arguments file : clear implicits.
Arguments AverageMeter : clear implicits.

(** ** The collaborators outside the file *)

(** Modelled from the spec: the generator and discriminator classes
    ([graphs.models]), the data loader ([datasets.celebA]) and torch's
    Adam optimiser are not part of the sources at hand.  Section 6 asks
    of them a constructor, serialisable parameter state and, for the data
    source, an iterable of batches with a known count; they are taken here
    as an interface, and every theorem holds for each implementation. *)
Class Torch (P O : Type) : Type := {
  Generator : config -> P;
  Discriminator : config -> P;
  Adam : Q -> Q * Q -> O;
  Adam_step : O -> P -> list (tensor P) -> P * O;
  CelebADataLoader : config -> dataloader
}.

(** ** The agent object and the world around it *)

Section Agent.
Context {P O : Type} `{!Torch P O}.

Record SummaryWriter : Type := mkWriter { log_dir : string; comment : string }.

(** The attributes of a [DCGANAgent].  [manual_seed] and [model] are
    [None] while the attribute is not bound on the object: no method
    assigns [model], and [__init__] binds [manual_seed] on one branch
    only. *)
Record agent : Type := mkAgent {
  config_of : config;
  netG : module P;
  netD : module P;
  dataloader_of : dataloader;
  batch_size : Z;
  optimG : O;
  optimD : O;
  current_epoch : Z;
  current_iteration : Z;
  best_valid_mean_iou : Z;
  fixed_noise : tensor P;
  real_label : Z;
  fake_label : Z;
  is_cuda : bool;
  cuda : bool;
  manual_seed : option Z;
  model : option (module P);
  summary_writer : SummaryWriter
}.

Definition set_current_epoch (v : Z) (a : agent) : agent :=
  mkAgent (config_of a) (netG a) (netD a) (dataloader_of a) (batch_size a)
    (optimG a) (optimD a) v (current_iteration a) (best_valid_mean_iou a)
    (fixed_noise a) (real_label a) (fake_label a) (is_cuda a) (cuda a)
    (manual_seed a) (model a) (summary_writer a).

Definition set_current_iteration (v : Z) (a : agent) : agent :=
  mkAgent (config_of a) (netG a) (netD a) (dataloader_of a) (batch_size a)
    (optimG a) (optimD a) (current_epoch a) v (best_valid_mean_iou a)
    (fixed_noise a) (real_label a) (fake_label a) (is_cuda a) (cuda a)
    (manual_seed a) (model a) (summary_writer a).

Definition set_netG (v : module P) (a : agent) : agent :=
  mkAgent (config_of a) v (netD a) (dataloader_of a) (batch_size a)
    (optimG a) (optimD a) (current_epoch a) (current_iteration a)
    (best_valid_mean_iou a) (fixed_noise a) (real_label a) (fake_label a)
    (is_cuda a) (cuda a) (manual_seed a) (model a) (summary_writer a).

Definition set_netD (v : module P) (a : agent) : agent :=
  mkAgent (config_of a) (netG a) v (dataloader_of a) (batch_size a)
    (optimG a) (optimD a) (current_epoch a) (current_iteration a)
    (best_valid_mean_iou a) (fixed_noise a) (real_label a) (fake_label a)
    (is_cuda a) (cuda a) (manual_seed a) (model a) (summary_writer a).

Definition set_optimG (v : O) (a : agent) : agent :=
  mkAgent (config_of a) (netG a) (netD a) (dataloader_of a) (batch_size a)
    v (optimD a) (current_epoch a) (current_iteration a)
    (best_valid_mean_iou a) (fixed_noise a) (real_label a) (fake_label a)
    (is_cuda a) (cuda a) (manual_seed a) (model a) (summary_writer a).

Definition set_optimD (v : O) (a : agent) : agent :=
  mkAgent (config_of a) (netG a) (netD a) (dataloader_of a) (batch_size a)
    (optimG a) v (current_epoch a) (current_iteration a)
    (best_valid_mean_iou a) (fixed_noise a) (real_label a) (fake_label a)
    (is_cuda a) (cuda a) (manual_seed a) (model a) (summary_writer a).

Definition set_model (v : option (module P)) (a : agent) : agent :=
  mkAgent (config_of a) (netG a) (netD a) (dataloader_of a) (batch_size a)
    (optimG a) (optimD a) (current_epoch a) (current_iteration a)
    (best_valid_mean_iou a) (fixed_noise a) (real_label a) (fake_label a)
    (is_cuda a) (cuda a) (manual_seed a) v (summary_writer a).

(** What the agent prints, and the calls it makes on the summary writer
    and the data loader at shutdown, in the order they happen. *)
Inductive event : Type :=
| PrintCudaWarning
| PrintGPU
| PrintCPU
| PrintLoading (filename : string)
| PrintLoaded (dir : string) (epoch iteration : Z)
| PrintNoCheckpoint (dir : string)
| PrintFirstTime
| PrintCtrlC
| TqdmOpen (epoch total : Z)
| TqdmClose
| PrintEpoch (epoch : Z) (lossD lossG mean1 mean2 mean3 : tensor P)
| PrintFinalizing
| ExportScalars (path : string)
| WriterClose
| LoaderFinalize.

Inductive tag : Type :=
| GeneratorLoss              (* "epoch/Generator_loss" *)
| DiscriminatorLoss          (* "epoch/Discriminator_loss" *)
| RealImage (curr_it : Z)    (* "Real image {}".format(curr_it) *)
| GeneratedImage (curr_it : Z). (* "Generated Image{}".format(curr_it) *)

(** A record received by the summary writer. *)
Inductive summary_record : Type :=
| Scalar (t : tag) (value : tensor P) (global_step : Z)
| Image (t : tag) (img : tensor P) (global_step : Z).

(** The elementary operations on the checkpoint directory.  Opening a
    path for writing truncates it; the content arrives with the dump. *)
Inductive fs_op : Type :=
| OpenWrite (path : string)
| Dump (path : string) (c : checkpoint P O)
| CopyData (src dst : string).

Definition fs_apply (op : fs_op) (d : gmap string (file P O)) : gmap string (file P O) :=
  match op with
  | OpenWrite p => <[p := Truncated]> d
  | Dump p c => <[p := Pickled c]> d
  | CopyData s t => match d !! s with
                    | Some f => <[t := f]> d
                    | None => d
                    end
  end.

Definition fs_replay (ops : list fs_op) (d : gmap string (file P O)) : gmap string (file P O) :=
  fold_left (fun d op => fs_apply op d) ops d.

(** The world outside the object.  [sigint = Some k]: a Ctrl-C is on
    its way and is delivered once [k] more training steps have
    completed; signals are delivered between steps. *)
Record world : Type := mkWorld {
  disk : gmap string (file P O);
  fs_log : list fs_op;
  stdout : list event;
  summary : list summary_record;
  torch_rng : rng;
  sigint : option nat;
  cuda_is_available : bool;
  randint_1_10000 : Z
}.

Definition set_disk (d : gmap string (file P O)) (l : list fs_op) (w : world) : world :=
  mkWorld d l (stdout w) (summary w) (torch_rng w) (sigint w)
    (cuda_is_available w) (randint_1_10000 w).

Definition set_stdout (v : list event) (w : world) : world :=
  mkWorld (disk w) (fs_log w) v (summary w) (torch_rng w) (sigint w)
    (cuda_is_available w) (randint_1_10000 w).

Definition set_summary (v : list summary_record) (w : world) : world :=
  mkWorld (disk w) (fs_log w) (stdout w) v (torch_rng w) (sigint w)
    (cuda_is_available w) (randint_1_10000 w).

Definition set_torch_rng (v : rng) (w : world) : world :=
  mkWorld (disk w) (fs_log w) (stdout w) (summary w) v (sigint w)
    (cuda_is_available w) (randint_1_10000 w).

Definition set_sigint (v : option nat) (w : world) : world :=
  mkWorld (disk w) (fs_log w) (stdout w) (summary w) (torch_rng w) v
    (cuda_is_available w) (randint_1_10000 w).

(** ** The monad of methods *)

(** A method runs on the object and the world, changes both, and either
    returns or raises; the changes made before a raise stay. *)
Definition M (A : Type) : Type := agent -> world -> result A * agent * world.

Definition ret {A} (x : A) : M A := fun a w => (Ok x, a, w).

Definition bind {A B} (m : M A) (k : A -> M B) : M B :=
  fun a w =>
    match m a w with
    | (Ok x, a', w') => k x a' w'
    | (Raise e, a', w') => (Raise e, a', w')
    end.

Definition raise {A} (e : exn) : M A := fun a w => (Raise e, a, w).

(** [try: m except <class>: h]. *)
Definition try_except {A} (m : M A) (catches : exn -> bool) (h : M A) : M A :=
  fun a w =>
    match m a w with
    | (Ok x, a', w') => (Ok x, a', w')
    | (Raise e, a', w') => if catches e then h a' w' else (Raise e, a', w')
    end.

Definition get_self : M agent := fun a w => (Ok a, a, w).
Definition get_world : M world := fun a w => (Ok w, a, w).
Definition modify_self (f : agent -> agent) : M unit := fun a w => (Ok tt, f a, w).
Definition modify_world (f : world -> world) : M unit := fun a w => (Ok tt, a, f w).

End Agent.

Arguments agent P O : clear implicits.
Arguments world P O : clear implicits.
Arguments M P O A : clear implicits.
Arguments event P : clear implicits.
Arguments summary_record P : clear implicits.
Arguments fs_op P O : clear implicits.

Declare Scope py_scope.
Delimit Scope py_scope with py.
Notation "x <- m ;; k" := (bind m (fun x => k))
  (at level 100, m at next level, right associativity) : py_scope.
Notation "m ;; k" := (bind m (fun _ => k))
  (at level 100, right associativity) : py_scope.

Open Scope py_scope.

(** ** The methods of [DCGANAgent] *)

Section Methods.
Context {P O : Type} `{!Torch P O}.

Local Abbreviation agent := (agent P O).
Local Abbreviation world := (world P O).
Local Abbreviation M := (M P O).

(** *** Primitives *)

Definition print (e : event P) : M unit :=
  modify_world (fun w => set_stdout (stdout w ++ [e]) w).

Definition fs_do (op : fs_op P O) : M unit :=
  modify_world (fun w => set_disk (fs_apply op (disk w)) (fs_log w ++ [op]) w).

(** [torch.load(filename)]. *)
Definition torch_load (filename : string) : M (checkpoint P O) :=
  w <- get_world;;
  match disk w !! filename with
  | None => raise FileNotFoundError
  | Some Unreadable => raise PermissionError
  | Some Truncated => raise EOFError
  | Some (Pickled c) => ret c
  end.

(** [torch.save(state, path)]: the path is opened for writing, then the
    pickle is written into it.  The directory is taken to be writable. *)
Definition torch_save (state : checkpoint P O) (path : string) : M unit :=
  fs_do (OpenWrite path);;
  fs_do (Dump path state).

(** [shutil.copyfile(src, dst)].  Two paths are taken to name the same
    file only when they are the same string: the directory holds no
    links and no path is written in two ways. *)
Definition shutil_copyfile (src dst : string) : M unit :=
  if bool_decide (src = dst) then raise SameFileError
  else
    w <- get_world;;
    match disk w !! src with
    | None => raise FileNotFoundError
    | Some Unreadable => raise PermissionError
    | Some _ => fs_do (OpenWrite dst);; fs_do (CopyData src dst)
    end.

(** [torch.randn(shape)]: a draw from the global generator. *)
Definition torch_randn (shape : list Z) : M (tensor P) :=
  w <- get_world;;
  modify_world (set_torch_rng (rng_next (torch_rng w)));;
  ret (Randn (torch_rng w) shape).

(** [add_scalar] and [add_image] of the summary writer. *)
Definition add_record (r : summary_record P) : M unit :=
  modify_world (fun w => set_summary (summary w ++ [r]) w).

(** Delivery of a pending Ctrl-C.  Python may raise [KeyboardInterrupt]
    anywhere; the model delivers it where section 5 of the spec places
    it, between two steps, when the loop asks for its next batch. *)
Definition check_signals : M unit :=
  w <- get_world;;
  match sigint w with
  | None => ret tt
  | Some 0%nat => modify_world (set_sigint None);; raise KeyboardInterrupt
  | Some (S k) => modify_world (set_sigint (Some k))
  end.

(** [loss.backward()]: the gradient reaches every module that the graph
    of the loss reaches. *)
Definition backward (loss : tensor P) : M unit :=
  modify_self (fun a => set_netG (accumulate NetG loss (netG a)) a);;
  modify_self (fun a => set_netD (accumulate NetD loss (netD a)) a).

(** [y.fill_(v)]. *)
Definition fill_ (y : tensor P) (v : Z) : tensor P :=
  match y with
  | Full shape _ => Full shape v
  | _ => y
  end.

(** [t.cuda(...)]: the device is not part of the expression. *)
Definition to_cuda (t : tensor P) : tensor P := t.

(** [range(lo, hi)]. *)
Definition range (lo hi : Z) : list Z :=
  map (fun i => lo + Z.of_nat i) (seq 0 (Z.to_nat (hi - lo))).

Fixpoint for_each {A} (xs : list A) (body : A -> M unit) : M unit :=
  match xs with
  | [] => ret tt
  | x :: xs' => body x;; for_each xs' body
  end.

(** *** load_checkpoint (lines 83-100) *)

Definition load_checkpoint (file_name : string) : M unit :=
  self <- get_self;;
  let filename := String.append (checkpoint_dir (config_of self)) file_name in
  try_except
    (print (PrintLoading filename);;
     checkpoint <- torch_load filename;;
     modify_self (set_current_epoch (epoch checkpoint));;
     modify_self (set_current_iteration (iteration checkpoint));;
     modify_self (fun a => set_netG (load_state_dict (G_state_dict checkpoint) (netG a)) a);;
     modify_self (set_optimG (G_optimizer checkpoint));;
     modify_self (fun a => set_netD (load_state_dict (D_state_dict checkpoint) (netD a)) a);;
     modify_self (set_optimD (D_optimizer checkpoint));;
     print (PrintLoaded (checkpoint_dir (config_of self))
              (epoch checkpoint) (iteration checkpoint)))
    is_OSError
    (print (PrintNoCheckpoint (checkpoint_dir (config_of self)));;
     print PrintFirstTime).

(** *** save_checkpoint (lines 102-116) *)

Definition save_checkpoint (file_name : string) (is_best : Z) : M unit :=
  self <- get_self;;
  let state :=
    {| epoch := current_epoch self + 1;
       iteration := current_iteration self;
       G_state_dict := state_dict (netG self);
       G_optimizer := optimG self;
       D_state_dict := state_dict (netD self);
       D_optimizer := optimD self |} in
  torch_save state (String.append (checkpoint_dir (config_of self)) file_name);;
  if negb (is_best =? 0)
  then shutil_copyfile
         (String.append (checkpoint_dir (config_of self)) file_name)
         (String.append (checkpoint_dir (config_of self)) "model_best.pth.tar")
  else ret tt.

(** [self.save_checkpoint()], with the default arguments. *)
Definition save_checkpoint_default : M unit :=
  save_checkpoint "checkpoint.pth.tar" 0.

(** *** train_one_epoch (lines 135-210) *)

(** The local variables of [train_one_epoch] that outlive a step.  The
    three means are bound by the first step only. *)
Record locals : Type := mkLocals {
  epoch_lossG : AverageMeter P;
  epoch_lossD : AverageMeter P;
  D_mean_real_out : option (tensor P);
  D_mean_fake_out : option (tensor P);
  D_G_mean_out : option (tensor P)
}.

Definition locals_init : locals :=
  {| epoch_lossG := meter_new; epoch_lossD := meter_new;
     D_mean_real_out := None; D_mean_fake_out := None; D_G_mean_out := None |}.

(** [optimD.step()] and [optimG.step()]: Adam moves the weights of the
    module along the gradient buffer the module holds at that moment. *)
Definition optimD_step : M unit :=
  self <- get_self;;
  let '(w, o) := Adam_step (optimD self) (weights (netD self)) (grad (netD self)) in
  modify_self (fun a => set_netD (set_weights w (netD a)) a);;
  modify_self (set_optimD o).

Definition optimG_step : M unit :=
  self <- get_self;;
  let '(w, o) := Adam_step (optimG self) (weights (netG self)) (grad (netG self)) in
  modify_self (fun a => set_netG (set_weights w (netG a)) a);;
  modify_self (set_optimG o).

(** The telemetry block of a step (lines 196-204). *)
Definition emit_telemetry (curr_it : Z) (x : tensor P) (lossG lossD : AverageMeter P) : M unit :=
  self <- get_self;;
  add_record (Scalar GeneratorLoss (meter_val lossG) (current_iteration self));;
  add_record (Scalar DiscriminatorLoss (meter_val lossD) (current_iteration self));;
  add_record (Image (RealImage curr_it) x (current_iteration self));;
  let Gen_out := Forward NetG (weights (netG self)) (fixed_noise self) in
  add_record (Image (GeneratedImage curr_it) (Detach Gen_out) (current_iteration self)).

(** The body of the loop over the batches (lines 146-204). *)
Definition train_step (curr_it : Z) (x : tensor P) (l : locals) : M locals :=
  self <- get_self;;
  let y := Full [batch_size self] (real_label self) in
  fake_noise <- torch_randn [batch_size self; g_input_size (config_of self); 1; 1];;
  let x := if cuda self then to_cuda x else x in
  let y := if cuda self then to_cuda y else y in
  let fake_noise := if cuda self then to_cuda fake_noise else fake_noise in
  (* Update D network: train with real *)
  modify_self (fun a => set_netD (zero_grad (netD a)) a);;
  self <- get_self;;
  let D_real_out := Forward NetD (weights (netD self)) x in
  let loss_D_real := BCE D_real_out y in
  backward loss_D_real;;
  (* train with fake *)
  self <- get_self;;
  let G_fake_out := Forward NetG (weights (netG self)) fake_noise in
  let y := fill_ y (fake_label self) in
  let D_fake_out := Forward NetD (weights (netD self)) (Detach G_fake_out) in
  let loss_D_fake := BCE D_fake_out y in
  backward loss_D_fake;;
  let loss_D := Plus loss_D_fake loss_D_real in
  optimD_step;;
  (* Update G network *)
  modify_self (fun a => set_netG (zero_grad (netG a)) a);;
  self <- get_self;;
  let y := fill_ y (real_label self) in
  let D_out := Forward NetD (weights (netD self)) G_fake_out in
  let loss_G := BCE D_out y in
  backward loss_G;;
  optimG_step;;
  let lossD := meter_update loss_D (epoch_lossD l) in
  let lossG := meter_update loss_G (epoch_lossG l) in
  modify_self (fun a => set_current_iteration (current_iteration a + 1) a);;
  (if curr_it mod 100 =? 0 then emit_telemetry curr_it x lossG lossD else ret tt);;
  ret {| epoch_lossG := lossG; epoch_lossD := lossD;
         D_mean_real_out := Some (Mean D_real_out);
         D_mean_fake_out := Some (Mean D_fake_out);
         D_G_mean_out := Some (Mean D_out) |}.

(** [for curr_it, x in enumerate(tqdm_batch)]. *)
Fixpoint for_enumerate (body : Z -> tensor P -> locals -> M locals)
    (curr_it : Z) (xs : list (tensor P)) (l : locals) : M locals :=
  match xs with
  | [] => ret l
  | x :: xs' =>
      check_signals;;
      l' <- body curr_it x l;;
      for_enumerate body (curr_it + 1) xs' l'
  end.

(** Reading a local variable that no step has bound. *)
Definition read_local (name : string) (v : option (tensor P)) : M (tensor P) :=
  match v with
  | Some t => ret t
  | None => raise (UnboundLocalError name)
  end.

(** [self.model.train()]. *)
Definition model_train : M unit :=
  self <- get_self;;
  match model self with
  | None => raise (AttributeError "model")
  | Some m => modify_self (set_model (Some (train_mode m)))
  end.

(** The loop of [train_one_epoch], up to and including its last step. *)
Definition epoch_loop : M locals :=
  self <- get_self;;
  print (TqdmOpen (current_epoch self) (num_iterations (dataloader_of self)));;
  model_train;;
  for_enumerate train_step 0 (map Batch (loader (dataloader_of self))) locals_init.

Definition train_one_epoch : M unit :=
  l <- epoch_loop;;
  print TqdmClose;;
  self <- get_self;;
  m1 <- read_local "D_mean_real_out" (D_mean_real_out l);;
  m2 <- read_local "D_mean_fake_out" (D_mean_fake_out l);;
  m3 <- read_local "D_G_mean_out" (D_G_mean_out l);;
  print (PrintEpoch (current_epoch self) (meter_val (epoch_lossD l))
           (meter_val (epoch_lossG l)) m1 m2 m3).

(** *** train, run, finalize *)

Definition train : M unit :=
  self <- get_self;;
  for_each (range (current_epoch self) (max_epoch (config_of self)))
    (fun epoch =>
       modify_self (set_current_epoch epoch);;
       train_one_epoch;;
       save_checkpoint_default).

Definition run : M unit :=
  try_except train is_KeyboardInterrupt (print PrintCtrlC).

Definition validate : M unit := ret tt.

Definition finalize : M unit :=
  print PrintFinalizing;;
  save_checkpoint_default;;
  self <- get_self;;
  print (ExportScalars (String.append (summary_dir (config_of self)) "all_scalars.json"));;
  print WriterClose;;
  print LoaderFinalize.

(** *** The constructor (lines 26-81) *)

Definition __init__ (cfg : config) (w : world) : result agent * world :=
  let netG := {| weights := Generator cfg; grad := []; training := true |} in
  let netD := {| weights := Discriminator cfg; grad := []; training := true |} in
  let dataloader := CelebADataLoader cfg in
  let batch_size := batch_size_cfg cfg in
  let optimG := Adam (learning_rate cfg) (beta1 cfg, beta2 cfg) in
  let optimD := Adam (learning_rate cfg) (beta1 cfg, beta2 cfg) in
  let fixed_noise := Randn (torch_rng w) [batch_size; g_input_size cfg; 1; 1] in
  let w := set_torch_rng (rng_next (torch_rng w)) w in
  let is_cuda := cuda_is_available w in
  let w := if is_cuda && negb (cuda_cfg cfg)
           then set_stdout (stdout w ++ [PrintCudaWarning]) w else w in
  let cuda := is_cuda && cuda_cfg cfg in
  (* set the manual seed for torch *)
  let manual_seed := match seed cfg with
                     | None => Some (randint_1_10000 w)
                     | Some _ => None
                     end in
  match manual_seed with
  | None => (Raise (AttributeError "manual_seed"), w)
  | Some s =>
      let w := set_torch_rng (rng_manual_seed s) w in
      if cuda then
        (* lines 68-69 call into torch and are taken to return; line 71
           reads self.vgg_model, which nothing has bound *)
        let w := set_stdout (stdout w ++ [PrintGPU]) w in
        (Raise (AttributeError "vgg_model"), w)
      else
        let w := set_stdout (stdout w ++ [PrintCPU]) w in
        (* summary_writer is bound on line 81, after the load, which does
           not read it *)
        let self :=
          {| config_of := cfg; netG := netG; netD := netD;
             dataloader_of := dataloader; batch_size := batch_size;
             optimG := optimG; optimD := optimD;
             current_epoch := 0; current_iteration := 0;
             best_valid_mean_iou := 0; fixed_noise := fixed_noise;
             real_label := 1; fake_label := 0;
             is_cuda := is_cuda; cuda := cuda;
             manual_seed := Some s; model := None;
             summary_writer := {| log_dir := summary_dir cfg; comment := "DCGAN" |} |} in
        match load_checkpoint (checkpoint_file cfg) self w with
        | (Ok _, self, w) => (Ok self, w)
        | (Raise e, _, w) => (Raise e, w)
        end
  end.

End Methods.

(** ** Vocabulary of the statements *)

Section Vocabulary.
Context {P O : Type} `{!Torch P O}.

Local Abbreviation agent := (agent P O).
Local Abbreviation world := (world P O).
Local Abbreviation M := (M P O).

(** The path of a checkpoint file of the agent. *)
Definition ckpt_path (a : agent) (file_name : string) : string :=
  String.append (checkpoint_dir (config_of a)) file_name.

Definition best_path (a : agent) : string := ckpt_path a "model_best.pth.tar".

(** The dictionary [save_checkpoint] builds from the object. *)
Definition state_of (a : agent) : checkpoint P O :=
  {| epoch := current_epoch a + 1;
     iteration := current_iteration a;
     G_state_dict := state_dict (netG a);
     G_optimizer := optimG a;
     D_state_dict := state_dict (netD a);
     D_optimizer := optimD a |}.

(** The object after a successful [load_checkpoint] of [c]. *)
Definition loaded (c : checkpoint P O) (a : agent) : agent :=
  set_optimD (D_optimizer c)
    (set_netD (load_state_dict (D_state_dict c) (netD a))
       (set_optimG (G_optimizer c)
          (set_netG (load_state_dict (G_state_dict c) (netG a))
             (set_current_iteration (iteration c)
                (set_current_epoch (epoch c) a))))).

(** The file operations of one [save_checkpoint]. *)
Definition save_ops (a : agent) (file_name : string) (is_best : Z) : list (fs_op P O) :=
  [OpenWrite (ckpt_path a file_name); Dump (ckpt_path a file_name) (state_of a)]
  ++ (if negb (is_best =? 0) && negb (bool_decide (ckpt_path a file_name = best_path a))
      then [OpenWrite (best_path a); CopyData (ckpt_path a file_name) (best_path a)]
      else []).


(** The object and the world a method leaves behind. *)
Definition agent_after {A} (m : M A) (a : agent) (w : world) : agent := (m a w).1.2.
Definition world_after {A} (m : M A) (a : agent) (w : world) : world := (m a w).2.
Definition result_of {A} (m : M A) (a : agent) (w : world) : result A := (m a w).1.1.

(** A relation between the state before and after holds for this run of
    the method, however the method ends. *)
Definition preserved {A} (R : agent -> world -> agent -> world -> Prop)
    (m : M A) (a : agent) (w : world) : Prop :=
  R a w (agent_after m a w) (world_after m a w).

(** What a training epoch leaves alone: the configuration, the loader,
    the epoch counter, the evaluation noise, the labels, the presence of
    the [model] attribute, and the checkpoint directory. *)
Definition epoch_frame (a : agent) (w : world) (a' : agent) (w' : world) : Prop :=
  config_of a' = config_of a ∧ dataloader_of a' = dataloader_of a ∧
  current_epoch a' = current_epoch a ∧ fixed_noise a' = fixed_noise a ∧
  (is_Some (model a) -> is_Some (model a')) ∧
  disk w' = disk w ∧ fs_log w' = fs_log w.


(** No Ctrl-C is delivered during the next [n] steps. *)
Definition no_sigint_within (n : nat) (w : world) : Prop :=
  match sigint w with
  | None => True
  | Some k => (n <= k)%nat
  end.

(** The pending Ctrl-C once [n] steps have completed without delivery. *)
Definition sigint_after (n : nat) (w : world) : option nat :=
  match sigint w with
  | None => None
  | Some k => Some (k - n)%nat
  end.

(** The body of the loop of [train] (lines 131-133). *)
Definition epoch_body (epoch : Z) : M unit :=
  modify_self (set_current_epoch epoch);;
  train_one_epoch;;
  save_checkpoint_default.


(** What no method changes after construction: the configuration, the
    loader, the evaluation noise and the presence of [model]. *)
Definition run_frame (a : agent) (w : world) (a' : agent) (w' : world) : Prop :=
  config_of a' = config_of a ∧ dataloader_of a' = dataloader_of a ∧
  fixed_noise a' = fixed_noise a ∧ (is_Some (model a) -> is_Some (model a')).

(** The epochs whose progress bar was opened, in order. *)
Definition entered (evs : list (event P)) : list Z :=
  omap (fun e => match e with TqdmOpen ep _ => Some ep | _ => None end) evs.

(** The epoch counter and the console are left alone. *)
Definition silent (a : agent) (w : world) (a' : agent) (w' : world) : Prop :=
  current_epoch a' = current_epoch a ∧ stdout w' = stdout w.

(** The evaluation noise and the summary writer are left alone. *)
Definition quiet (a : agent) (w : world) (a' : agent) (w' : world) : Prop :=
  fixed_noise a' = fixed_noise a ∧ summary w' = summary w.

(** A generated-sample image comes from the noise vector [z]. *)
Definition from_fixed (z : tensor P) (r : summary_record P) : Prop :=
  match r with
  | Image (GeneratedImage _) img _ => exists p, img = Detach (Forward NetG p z)
  | _ => True
  end.

(** The evaluation noise is kept, and every generated-sample image
    written meanwhile comes from it. *)
Definition noise_kept (a : agent) (w : world) (a' : agent) (w' : world) : Prop :=
  fixed_noise a' = fixed_noise a ∧
  exists new, summary w' = summary w ++ new ∧ Forall (from_fixed (fixed_noise a)) new.

(** *** The per-step protocol, in the words of section 4.1 *)

(** Step 1: the fresh noise of the step. *)
Definition step_noise (a : agent) (w : world) : tensor P :=
  Randn (torch_rng w) [batch_size a; g_input_size (config_of a); 1; 1].

(** Step 3: the fake batch. *)
Definition step_fake (a : agent) (w : world) : tensor P :=
  Forward NetG (weights (netG a)) (step_noise a w).

(** Step 2: the discriminator loss on the real batch, against the real label. *)
Definition step_loss_D_real (x : tensor P) (a : agent) : tensor P :=
  BCE (Forward NetD (weights (netD a)) x) (Full [batch_size a] (real_label a)).

(** Step 3: the discriminator loss on the detached fake batch, against
    the fake label. *)
Definition step_loss_D_fake (a : agent) (w : world) : tensor P :=
  BCE (Forward NetD (weights (netD a)) (Detach (step_fake a w)))
      (Full [batch_size a] (fake_label a)).

(** Step 3: one discriminator optimiser step on the real and fake
    gradient together. *)
Definition step_D (x : tensor P) (a : agent) (w : world) : P * O :=
  Adam_step (optimD a) (weights (netD a)) [step_loss_D_real x a; step_loss_D_fake a w].

(** Step 4: the generator loss: the updated discriminator on the same
    fake batch, not detached, against the real label. *)
Definition step_loss_G (x : tensor P) (a : agent) (w : world) : tensor P :=
  BCE (Forward NetD (step_D x a w).1 (step_fake a w))
      (Full [batch_size a] (real_label a)).

(** Step 4: the generator optimiser step. *)
Definition step_G (x : tensor P) (a : agent) (w : world) : P * O :=
  Adam_step (optimG a) (weights (netG a)) [step_loss_G x a w].

(** Step 6: the telemetry block of a step with in-epoch index [curr_it]. *)
Definition step_telemetry (curr_it : Z) (x : tensor P) (a : agent) (w : world)
    : list (summary_record P) :=
  [Scalar GeneratorLoss (step_loss_G x a w) (current_iteration a + 1);
   Scalar DiscriminatorLoss (Plus (step_loss_D_fake a w) (step_loss_D_real x a))
     (current_iteration a + 1);
   Image (RealImage curr_it) x (current_iteration a + 1);
   Image (GeneratedImage curr_it)
     (Detach (Forward NetG (step_G x a w).1 (fixed_noise a)))
     (current_iteration a + 1)].

(** The step index a record was stamped with. *)
Definition global_step_of (r : summary_record P) : Z :=
  match r with
  | Scalar _ _ n | Image _ _ n => n
  end.

(** What a reader that opens [path] while the operations [ops] have been
    carried out on [d] gets from [torch.load]. *)
Definition reader_sees (ops : list (fs_op P O)) (d : gmap string (file P O))
    (path : string) : result (checkpoint P O) :=
  match fs_replay ops d !! path with
  | None => Raise FileNotFoundError
  | Some Unreadable => Raise PermissionError
  | Some Truncated => Raise EOFError
  | Some (Pickled c) => Ok c
  end.

(** The configuration is kept and no path of the directory other than
    the default checkpoint file changes. *)
Definition writes_only_checkpoint (a : agent) (w : world) (a' : agent) (w' : world) : Prop :=
  config_of a' = config_of a ∧
  forall p, p ≠ ckpt_path a "checkpoint.pth.tar" -> disk w' !! p = disk w !! p.

(** The random generator keeps its seed, and the iteration counter has
    advanced by exactly the number of draws made. *)
Definition steps_match_draws (a : agent) (w : world) (a' : agent) (w' : world) : Prop :=
  rng_seed (torch_rng w') = rng_seed (torch_rng w) ∧
  (rng_draws (torch_rng w) <= rng_draws (torch_rng w'))%nat ∧
  current_iteration a' - current_iteration a =
    Z.of_nat (rng_draws (torch_rng w') - rng_draws (torch_rng w)).

(** The tag and the stamp of a record, without its value. *)
Definition record_key (r : summary_record P) : tag * Z :=
  match r with
  | Scalar t _ n | Image t _ n => (t, n)
  end.

(** The keys of the telemetry block of the step with in-epoch index
    [curr_it] that brings the iteration counter to [n]. *)
Definition block_keys (curr_it n : Z) : list (tag * Z) :=
  [(GeneratorLoss, n); (DiscriminatorLoss, n);
   (RealImage curr_it, n); (GeneratedImage curr_it, n)].

(** The keys that [m] steps in a row write, the first of them with
    in-epoch index [i] and from the iteration count [it]: a block on each
    step whose index is a multiple of 100, nothing on the others. *)
Fixpoint telemetry_keys (i it : Z) (m : nat) : list (tag * Z) :=
  match m with
  | 0%nat => []
  | S m' => (if i mod 100 =? 0 then block_keys i (it + 1) else [])
            ++ telemetry_keys (i + 1) (it + 1) m'
  end.

(** The number of steps an epoch of [n] batches takes: all of them,
    unless a Ctrl-C arrives first. *)
Definition steps_taken (n : nat) (w : world) : nat :=
  match sigint w with
  | None => n
  | Some k => Nat.min k n
  end.

End Vocabulary.

(** ** A small implementation of the interface, for running the agent *)

Module Toy.

(** Weights and optimiser states are counters: Adam adds to the weights
    the number of losses in the gradient buffer and counts its steps. *)
#[global] Instance toy_torch : Torch Z Z := {|
  Generator := fun _ => 10;
  Discriminator := fun _ => 20;
  Adam := fun _ _ => 0;
  Adam_step := fun o p g => (p + Z.of_nat (length g), o + 1);
  CelebADataLoader := fun _ => {| loader := [0; 1]%nat; num_iterations := 2 |}
|}.

Definition cfg (max : Z) : config :=
  {| batch_size_cfg := 4; g_input_size := 8;
     learning_rate := 2 # 10000; beta1 := 5 # 10; beta2 := 999 # 1000;
     cuda_cfg := false; seed := None;
     checkpoint_dir := "ckpt/"; checkpoint_file := "checkpoint.pth.tar";
     summary_dir := "summaries/"; max_epoch := max; async_loading := false |}.

Definition fresh_world : world Z Z :=
  {| disk := ∅; fs_log := []; stdout := []; summary := [];
     torch_rng := {| rng_seed := None; rng_draws := 0 |};
     sigint := None; cuda_is_available := false; randint_1_10000 := 42 |}.

(** The object [__init__ (cfg max) fresh_world] returns. *)
Definition constructed (max : Z) : agent Z Z :=
  {| config_of := cfg max;
     netG := {| weights := 10; grad := []; training := true |};
     netD := {| weights := 20; grad := []; training := true |};
     dataloader_of := {| loader := [0; 1]%nat; num_iterations := 2 |};
     batch_size := 4; optimG := 0; optimD := 0;
     current_epoch := 0; current_iteration := 0; best_valid_mean_iou := 0;
     fixed_noise := Randn {| rng_seed := None; rng_draws := 0 |} [4; 8; 1; 1];
     real_label := 1; fake_label := 0; is_cuda := false; cuda := false;
     manual_seed := Some 42; model := None;
     summary_writer := {| log_dir := "summaries/"; comment := "DCGAN" |} |}.

(** The world [__init__ (cfg max) fresh_world] leaves. *)
Definition started_world : world Z Z :=
  {| disk := ∅; fs_log := [];
     stdout := [PrintCPU; PrintLoading "ckpt/checkpoint.pth.tar";
                PrintNoCheckpoint "ckpt/"; PrintFirstTime];
     summary := [];
     torch_rng := {| rng_seed := Some 42; rng_draws := 0 |};
     sigint := None; cuda_is_available := false; randint_1_10000 := 42 |}.

(** The same object once a caller has run [agent.model = agent.netG]. *)
Definition with_model (a : agent Z Z) : agent Z Z := set_model (Some (netG a)) a.

(** A world in which a Ctrl-C arrives after [k] more steps. *)
Definition with_sigint (k : nat) (w : world Z Z) : world Z Z := set_sigint (Some k) w.

(** A checkpoint as the first epoch of two batches leaves it. *)
Definition ckpt1 : checkpoint Z Z :=
  {| epoch := 1; iteration := 2;
     G_state_dict := 12; G_optimizer := 2; D_state_dict := 24; D_optimizer := 2 |}.

(** A world whose checkpoint file holds [f]. *)
Definition with_file (f : file Z Z) (w : world Z Z) : world Z Z :=
  set_disk (<["ckpt/checkpoint.pth.tar" := f]> (disk w)) (fs_log w) w.

(** The configuration with a seed given. *)
Definition seeded_cfg (s : Z) : config :=
  {| batch_size_cfg := 4; g_input_size := 8;
     learning_rate := 2 # 10000; beta1 := 5 # 10; beta2 := 999 # 1000;
     cuda_cfg := false; seed := Some s;
     checkpoint_dir := "ckpt/"; checkpoint_file := "checkpoint.pth.tar";
     summary_dir := "summaries/"; max_epoch := 1; async_loading := false |}.

(** The object on which training can run. *)
Definition trainer (max : Z) : agent Z Z := with_model (constructed max).

(** The world in which the Ctrl-C arrives after three steps: the two
    steps of epoch 0 and the first step of epoch 1. *)
Definition cancelled_world : world Z Z := with_sigint 3 started_world.

(** The checkpoint [finalize] writes after that cancellation. *)
Definition ckpt_cancelled : checkpoint Z Z :=
  {| epoch := 2; iteration := 3;
     G_state_dict := 13; G_optimizer := 3; D_state_dict := 26; D_optimizer := 3 |}.

(** A trainer whose loader yields no batch. *)
Definition empty_trainer (max : Z) : agent Z Z :=
  mkAgent (cfg max) (netG (trainer max)) (netD (trainer max))
    {| loader := []; num_iterations := 0 |} 4 0 0 0 0 0
    (fixed_noise (trainer max)) 1 0 false false (Some 42)
    (model (trainer max)) (summary_writer (trainer max)).

(** The directory in which the first epoch has left its checkpoint. *)
Definition resumed_world : world Z Z := with_file (Pickled ckpt1) fresh_world.

End Toy.

(** * Properties *)

Section Proofs.
Context {P O : Type} `{!Torch P O}.

Local Abbreviation agent := (agent P O).
Local Abbreviation world := (world P O).
Local Abbreviation M := (M P O).

Ltac ne := first [done | by apply not_eq_sym].

Ltac map_simpl :=
  repeat (simpl; first [rewrite lookup_insert_eq | rewrite lookup_insert_ne by ne]).

Ltac unfold_py :=
  unfold load_checkpoint, save_checkpoint_default, save_checkpoint, torch_save,
    torch_load, shutil_copyfile, print, fs_do, add_record, try_except, bind, ret,
    raise, get_self, get_world, modify_self, modify_world in *.

Lemma bind_eq {A B} (m : M A) (k : A -> M B) (a : agent) (w : world) :
  bind m k a w =
    match m a w with
    | (Ok x, a', w') => k x a' w'
    | (Raise e, a', w') => (Raise e, a', w')
    end.
Proof. reflexivity. Qed.

(** ** Relations kept by every run of a method *)

Section Preserved.
Variable R : agent -> world -> agent -> world -> Prop.
Hypothesis R_refl : forall a w, R a w a w.
Hypothesis R_trans : forall a w a1 w1 a2 w2,
  R a w a1 w1 -> R a1 w1 a2 w2 -> R a w a2 w2.

Lemma preserved_ret {A} (x : A) a w : preserved R (ret x) a w.
Proof. apply R_refl. Qed.

Lemma preserved_raise {A} e a w : preserved R (raise (A:=A) e) a w.
Proof. apply R_refl. Qed.

Lemma preserved_get_self a w : preserved R get_self a w.
Proof. apply R_refl. Qed.

Lemma preserved_get_world a w : preserved R get_world a w.
Proof. apply R_refl. Qed.

Lemma preserved_bind {A B} (m : M A) (k : A -> M B) a w :
  preserved R m a w ->
  (forall x a' w', m a w = (Ok x, a', w') -> preserved R (k x) a' w') ->
  preserved R (bind m k) a w.
Proof.
  unfold preserved, agent_after, world_after, bind. intros Hm Hk.
  destruct (m a w) as [[[x|e] a'] w'] eqn:E; simpl in *; [|done].
  specialize (Hk x a' w' eq_refl). eapply R_trans; [exact Hm|exact Hk].
Qed.

Lemma preserved_try_except {A} (m h : M A) catches a w :
  preserved R m a w ->
  (forall e a' w', m a w = (Raise e, a', w') -> catches e = true ->
                   preserved R h a' w') ->
  preserved R (try_except m catches h) a w.
Proof.
  unfold preserved, agent_after, world_after, try_except. intros Hm Hh.
  destruct (m a w) as [[[x|e] a'] w'] eqn:E; simpl in *; [done|].
  destruct (catches e) eqn:Hc; [|done].
  specialize (Hh e a' w' eq_refl Hc). eapply R_trans; [exact Hm|exact Hh].
Qed.

Lemma preserved_for_each {A} (xs : list A) (body : A -> M unit) :
  (forall x a w, x ∈ xs -> preserved R (body x) a w) ->
  forall a w, preserved R (for_each xs body) a w.
Proof.
  induction xs as [|x xs IH]; intros Hb a w; simpl.
  - apply preserved_ret.
  - apply preserved_bind.
    + apply Hb. by left.
    + intros _ a' w' _. apply IH. intros y a1 w1 Hy. apply Hb. by right.
Qed.

Lemma preserved_for_enumerate (body : Z -> tensor P -> locals -> M locals) :
  (forall a w, preserved R check_signals a w) ->
  (forall i x l a w, preserved R (body i x l) a w) ->
  forall xs i l a w, preserved R (for_enumerate body i xs l) a w.
Proof.
  intros Hc Hb. induction xs as [|x xs IH]; intros i l a w; simpl.
  - apply preserved_ret.
  - apply preserved_bind; [apply Hc|]. intros _ a1 w1 _.
    apply preserved_bind; [apply Hb|]. intros l' a2 w2 _. apply IH.
Qed.

End Preserved.

(** ** Checkpoint load *)

Lemma load_checkpoint_pickled (file_name : string) (a : agent) (w : world) c :
  disk w !! ckpt_path a file_name = Some (Pickled c) ->
  load_checkpoint file_name a w =
    (Ok tt, loaded c a,
     set_stdout (stdout w ++ [PrintLoading (ckpt_path a file_name)]
                   ++ [PrintLoaded (checkpoint_dir (config_of a)) (epoch c) (iteration c)]) w).
Proof.
  intros Hc. unfold_py. unfold ckpt_path in Hc. simpl. rewrite Hc. simpl.
  unfold loaded, set_stdout. simpl. by rewrite <- app_assoc.
Qed.

Lemma load_checkpoint_missing (file_name : string) (a : agent) (w : world) :
  disk w !! ckpt_path a file_name = None ∨
  disk w !! ckpt_path a file_name = Some Unreadable ->
  load_checkpoint file_name a w =
    (Ok tt, a,
     set_stdout (stdout w ++ [PrintLoading (ckpt_path a file_name);
                              PrintNoCheckpoint (checkpoint_dir (config_of a));
                              PrintFirstTime]) w).
Proof.
  intros Hc. unfold_py. unfold ckpt_path in Hc. simpl.
  destruct Hc as [-> | ->]; simpl; unfold set_stdout; simpl;
    by rewrite <- !app_assoc.
Qed.

Lemma load_checkpoint_truncated (file_name : string) (a : agent) (w : world) :
  disk w !! ckpt_path a file_name = Some Truncated ->
  load_checkpoint file_name a w =
    (Raise EOFError, a,
     set_stdout (stdout w ++ [PrintLoading (ckpt_path a file_name)]) w).
Proof.
  intros Hc. unfold_py. unfold ckpt_path in Hc. simpl. by rewrite Hc.
Qed.

(** ** Checkpoint save *)

Lemma save_checkpoint_spec (file_name : string) (is_best : Z) (a : agent) (w : world) :
  ∃ r,
    save_checkpoint file_name is_best a w =
      (r, a, set_disk (fs_replay (save_ops a file_name is_best) (disk w))
               (fs_log w ++ save_ops a file_name is_best) w)
    ∧ (r = Ok tt ∨ (r = Raise SameFileError ∧ is_best ≠ 0 ∧
                    ckpt_path a file_name = best_path a)).
Proof.
  unfold save_ops, best_path, ckpt_path. unfold_py. simpl.
  destruct (is_best =? 0) eqn:Hb; simpl.
  - eexists; split; [|by left]. unfold set_disk; simpl. by rewrite <- app_assoc.
  - case_bool_decide as Hp; simpl.
    + eexists; split; [|right; split; [done|split; [lia|done]]].
      unfold set_disk; simpl. by rewrite <- app_assoc.
    + eexists; split; [|by left]. unfold set_disk.
      map_simpl. simpl. by rewrite <- !app_assoc.
Qed.

Lemma save_ops_disk_path (a : agent) (file_name : string) (is_best : Z) d :
  fs_replay (save_ops a file_name is_best) d !! ckpt_path a file_name
  = Some (Pickled (state_of a)).
Proof.
  unfold save_ops. simpl.
  destruct (negb (is_best =? 0) && negb (bool_decide (ckpt_path a file_name = best_path a))) eqn:Hb; simpl.
  - apply andb_true_iff in Hb as [_ Hb]. apply negb_true_iff in Hb.
    apply bool_decide_eq_false in Hb. by map_simpl.
  - by map_simpl.
Qed.

Lemma save_ops_disk_best (a : agent) (file_name : string) (is_best : Z) d :
  is_best ≠ 0 ->
  fs_replay (save_ops a file_name is_best) d !! best_path a
  = Some (Pickled (state_of a)).
Proof.
  intros Hb. unfold save_ops. simpl.
  assert ((is_best =? 0) = false) as Hz by lia. rewrite Hz. simpl.
  case_bool_decide as Hp; simpl.
  - rewrite <- Hp. by map_simpl.
  - by map_simpl.
Qed.

Lemma save_ops_disk_other (a : agent) (file_name : string) (is_best : Z) d p :
  p ≠ ckpt_path a file_name -> p ≠ best_path a ->
  fs_replay (save_ops a file_name is_best) d !! p = d !! p.
Proof.
  intros H1 H2. unfold save_ops. simpl.
  destruct (negb (is_best =? 0) && negb (bool_decide (ckpt_path a file_name = best_path a))); simpl.
  - destruct (_ !! ckpt_path a file_name); by map_simpl.
  - by map_simpl.
Qed.

(** ** One training step *)

Ltac unfold_step :=
  unfold train_step, optimD_step, optimG_step, backward, torch_randn,
    emit_telemetry, check_signals, to_cuda in *;
  unfold_py.

Ltac destruct_adam :=
  repeat match goal with
         | |- context [Adam_step ?o ?p ?g] =>
             let w := fresh "w" in let o' := fresh "o" in
             destruct (Adam_step o p g) as [w o'] eqn:?; simpl
         end.

Lemma train_step_total i x l (a : agent) (w : world) :
  exists l' a' w', train_step i x l a w = (Ok l', a', w').
Proof.
  unfold_step. simpl. destruct_adam.
  destruct (i mod 100 =? 0); simpl; eauto.
Qed.

Lemma train_step_frame i x l (a : agent) (w : world) :
  preserved epoch_frame (train_step i x l) a w.
Proof.
  unfold preserved, agent_after, world_after, epoch_frame.
  unfold_step. simpl. destruct_adam.
  destruct (i mod 100 =? 0); simpl; repeat split; done.
Qed.

Lemma train_step_counts i x l (a : agent) (w : world) l' a' w' :
  train_step i x l a w = (Ok l', a', w') ->
  current_iteration a' = current_iteration a + 1 ∧
  sigint w' = sigint w ∧
  meter_count (epoch_lossD l') = S (meter_count (epoch_lossD l)) ∧
  meter_count (epoch_lossG l') = S (meter_count (epoch_lossG l)) ∧
  is_Some (D_mean_real_out l') ∧ is_Some (D_mean_fake_out l') ∧
  is_Some (D_G_mean_out l').
Proof.
  unfold_step. simpl. destruct_adam.
  destruct (i mod 100 =? 0); simpl; intros [= <- <- <-]; simpl;
    unfold meter_count, meter_update; rewrite !length_app; simpl;
    repeat split; eauto; lia.
Qed.

(** ** The loop over the batches *)

Lemma epoch_frame_refl (a : agent) (w : world) : epoch_frame a w a w.
Proof. by repeat split. Qed.

Lemma epoch_frame_trans (a : agent) (w : world) a1 w1 a2 w2 :
  epoch_frame a w a1 w1 -> epoch_frame a1 w1 a2 w2 -> epoch_frame a w a2 w2.
Proof.
  unfold epoch_frame. intros (?&?&?&?&?&?&?) (?&?&?&?&?&?&?).
  repeat split; try congruence. auto.
Qed.

Lemma check_signals_frame (a : agent) (w : world) :
  preserved epoch_frame check_signals a w.
Proof.
  unfold preserved, agent_after, world_after, epoch_frame. unfold_step. simpl.
  destruct (sigint w) as [[|k]|]; simpl; by repeat split.
Qed.

Lemma for_enumerate_frame xs i l (a : agent) (w : world) :
  preserved epoch_frame (for_enumerate train_step i xs l) a w.
Proof.
  apply (preserved_for_enumerate epoch_frame epoch_frame_refl epoch_frame_trans).
  - intros. apply check_signals_frame.
  - intros. apply train_step_frame.
Qed.

(** Without a Ctrl-C in the way, the loop runs every step. *)
Lemma for_enumerate_completes xs : forall i l (a : agent) (w : world),
  no_sigint_within (length xs) w ->
  exists l' a' w',
    for_enumerate train_step i xs l a w = (Ok l', a', w') ∧
    current_iteration a' = current_iteration a + Z.of_nat (length xs) ∧
    sigint w' = sigint_after (length xs) w ∧
    meter_count (epoch_lossD l') = (meter_count (epoch_lossD l) + length xs)%nat ∧
    meter_count (epoch_lossG l') = (meter_count (epoch_lossG l) + length xs)%nat ∧
    (xs ≠ [] -> is_Some (D_mean_real_out l') ∧ is_Some (D_mean_fake_out l') ∧
                is_Some (D_G_mean_out l')).
Proof.
  induction xs as [|x xs IH]; intros i l a w Hs.
  - exists l, a, w. simpl. unfold sigint_after, no_sigint_within in *.
    split; [done|]. split; [lia|]. split.
    { destruct (sigint w); [f_equal; lia|done]. }
    split; [lia|]. split; [lia|done].
  - assert (exists w0, check_signals a w = (Ok tt, a, w0) ∧
              sigint w0 = sigint_after 1 w ∧ no_sigint_within (length xs) w0)
      as (w0 & Hc & Hs0 & Hn0).
    { unfold no_sigint_within, sigint_after in *. unfold_step. simpl in *.
      destruct (sigint w) as [[|k]|] eqn:E; simpl in *; [lia| |].
      - eexists; split; [done|]. simpl. split; [f_equal; lia|lia].
      - eexists; split; [done|]. by rewrite E. }
    destruct (train_step_total i x l a w0) as (l1 & a1 & w1 & Ht).
    destruct (train_step_counts _ _ _ _ _ _ _ _ Ht) as (Hi & Hsig & HD & HG & H1 & H2 & H3).
    assert (no_sigint_within (length xs) w1) as Hn1.
    { unfold no_sigint_within in *. by rewrite Hsig. }
    destruct (IH (i + 1) l1 a1 w1 Hn1) as (l' & a' & w' & Hf & Hi' & Hs' & HD' & HG' & Hm).
    exists l', a', w'. simpl. unfold bind at 1. rewrite Hc. unfold bind at 1.
    rewrite Ht. rewrite Hf. repeat split; try lia.
    + rewrite Hs'. unfold sigint_after in *. rewrite Hsig, Hs0.
      destruct (sigint w); [f_equal; lia|done].
    + destruct xs; [|by apply Hm]. simpl in Hf. by injection Hf as <- <- <-.
    + destruct xs; [|by apply Hm]. simpl in Hf. by injection Hf as <- <- <-.
    + destruct xs; [|by apply Hm]. simpl in Hf. by injection Hf as <- <- <-.
Qed.

(** A Ctrl-C due after [k] steps stops the loop after exactly [k] steps. *)
Lemma for_enumerate_interrupted xs : forall (k : nat) i l (a : agent) (w : world),
  sigint w = Some k -> (k < length xs)%nat ->
  exists a' w',
    for_enumerate train_step i xs l a w = (Raise KeyboardInterrupt, a', w') ∧
    current_iteration a' = current_iteration a + Z.of_nat k ∧
    sigint w' = None.
Proof.
  induction xs as [|x xs IH]; intros k i l a w Hs Hk; simpl in Hk; [lia|].
  destruct k as [|k].
  - exists a, (set_sigint None w). simpl. unfold_step. simpl. rewrite Hs. simpl.
    repeat split. lia.
  - assert (check_signals a w = (Ok tt, a, set_sigint (Some k) w)) as Hc.
    { unfold_step. simpl. by rewrite Hs. }
    destruct (train_step_total i x l a (set_sigint (Some k) w)) as (l1 & a1 & w1 & Ht).
    destruct (train_step_counts _ _ _ _ _ _ _ _ Ht) as (Hi & Hsig & _).
    simpl in Hsig.
    destruct (IH k (i + 1) l1 a1 w1 Hsig ltac:(lia)) as (a' & w' & Hf & Hi' & Hs').
    exists a', w'. simpl. unfold bind at 1. rewrite Hc. unfold bind at 1.
    rewrite Ht. rewrite Hf. repeat split; [lia|done].
Qed.

(** ** One epoch *)

(** The state in which the loop over the batches starts. *)
Lemma epoch_loop_unfold (a : agent) (w : world) m :
  model a = Some m ->
  epoch_loop a w =
    for_enumerate train_step 0 (map Batch (loader (dataloader_of a))) locals_init
      (set_model (Some (train_mode m)) a)
      (set_stdout (stdout w ++ [TqdmOpen (current_epoch a) (num_iterations (dataloader_of a))]) w).
Proof.
  intros Hm. unfold epoch_loop, model_train. unfold_py. simpl. by rewrite Hm.
Qed.

Lemma epoch_loop_no_model (a : agent) (w : world) :
  model a = None ->
  epoch_loop a w =
    (Raise (AttributeError "model"), a,
     set_stdout (stdout w ++ [TqdmOpen (current_epoch a) (num_iterations (dataloader_of a))]) w).
Proof.
  intros Hm. unfold epoch_loop, model_train. unfold_py. simpl. by rewrite Hm.
Qed.

Lemma epoch_loop_completes (a : agent) (w : world) :
  is_Some (model a) ->
  no_sigint_within (length (loader (dataloader_of a))) w ->
  exists l a' w',
    epoch_loop a w = (Ok l, a', w') ∧
    current_iteration a' =
      current_iteration a + Z.of_nat (length (loader (dataloader_of a))) ∧
    sigint w' = sigint_after (length (loader (dataloader_of a))) w ∧
    meter_count (epoch_lossD l) = length (loader (dataloader_of a)) ∧
    meter_count (epoch_lossG l) = length (loader (dataloader_of a)) ∧
    (loader (dataloader_of a) ≠ [] ->
     is_Some (D_mean_real_out l) ∧ is_Some (D_mean_fake_out l) ∧
     is_Some (D_G_mean_out l)).
Proof.
  intros [m Hm] Hs. rewrite (epoch_loop_unfold _ _ _ Hm).
  edestruct (for_enumerate_completes (map Batch (loader (dataloader_of a))) 0 locals_init)
    as (l & a' & w' & Hf & Hi & Hsig & HD & HG & Hmeans); [|exists l, a', w'].
  2: { split; [exact Hf|]. rewrite length_map in *. simpl in *.
       repeat split; try done; apply Hmeans; by destruct (loader (dataloader_of a)). }
  by rewrite length_map.
Qed.

Lemma epoch_loop_interrupted (a : agent) (w : world) (k : nat) :
  is_Some (model a) ->
  sigint w = Some k -> (k < length (loader (dataloader_of a)))%nat ->
  exists a' w',
    epoch_loop a w = (Raise KeyboardInterrupt, a', w') ∧
    current_iteration a' = current_iteration a + Z.of_nat k ∧
    sigint w' = None.
Proof.
  intros [m Hm] Hs Hk. rewrite (epoch_loop_unfold _ _ _ Hm).
  edestruct (for_enumerate_interrupted (map Batch (loader (dataloader_of a))) k 0 locals_init)
    as (a' & w' & Hf & Hi & Hsig); [| |exists a', w'; split; [exact Hf|]];
    rewrite ?length_map; done.
Qed.

Lemma train_one_epoch_completes (a : agent) (w : world) :
  is_Some (model a) ->
  loader (dataloader_of a) ≠ [] ->
  no_sigint_within (length (loader (dataloader_of a))) w ->
  exists a' w',
    train_one_epoch a w = (Ok tt, a', w') ∧
    current_iteration a' =
      current_iteration a + Z.of_nat (length (loader (dataloader_of a))) ∧
    sigint w' = sigint_after (length (loader (dataloader_of a))) w.
Proof.
  intros Hm Hne Hs.
  destruct (epoch_loop_completes a w Hm Hs)
    as (l & a' & w' & Hl & Hi & Hsig & _ & _ & Hmeans).
  destruct (Hmeans Hne) as ([m1 H1] & [m2 H2] & [m3 H3]).
  unfold train_one_epoch, read_local. unfold bind at 1. rewrite Hl.
  unfold_py. simpl. rewrite H1, H2, H3. simpl. eauto.
Qed.

Lemma train_one_epoch_interrupted (a : agent) (w : world) (k : nat) :
  is_Some (model a) ->
  sigint w = Some k -> (k < length (loader (dataloader_of a)))%nat ->
  exists a' w',
    train_one_epoch a w = (Raise KeyboardInterrupt, a', w') ∧
    current_iteration a' = current_iteration a + Z.of_nat k ∧
    sigint w' = None.
Proof.
  intros Hm Hs Hk.
  destruct (epoch_loop_interrupted a w k Hm Hs Hk) as (a' & w' & Hl & Hi & Hsig).
  unfold train_one_epoch. unfold bind at 1. rewrite Hl. eauto.
Qed.

Lemma train_one_epoch_no_model (a : agent) (w : world) :
  model a = None ->
  train_one_epoch a w =
    (Raise (AttributeError "model"), a,
     set_stdout (stdout w ++ [TqdmOpen (current_epoch a) (num_iterations (dataloader_of a))]) w).
Proof.
  intros Hm. unfold train_one_epoch. unfold bind at 1.
  by rewrite (epoch_loop_no_model _ _ Hm).
Qed.

Ltac frame_prim :=
  unfold preserved, agent_after, world_after, epoch_frame; unfold_step; simpl;
  repeat split; done.

Lemma epoch_loop_frame (a : agent) (w : world) :
  preserved epoch_frame epoch_loop a w.
Proof.
  destruct (model a) as [m|] eqn:Hm.
  - unfold preserved, agent_after, world_after.
    rewrite (epoch_loop_unfold _ _ _ Hm).
    eapply epoch_frame_trans; [|apply for_enumerate_frame].
    unfold epoch_frame; simpl; repeat split; done.
  - unfold preserved, agent_after, world_after.
    rewrite (epoch_loop_no_model _ _ Hm). simpl. by repeat split.
Qed.

Lemma train_one_epoch_frame (a : agent) (w : world) :
  preserved epoch_frame train_one_epoch a w.
Proof.
  unfold train_one_epoch.
  apply (preserved_bind epoch_frame epoch_frame_trans); [apply epoch_loop_frame|].
  intros l a1 w1 _.
  apply (preserved_bind epoch_frame epoch_frame_trans); [frame_prim|].
  intros _ a2 w2 _.
  apply (preserved_bind epoch_frame epoch_frame_trans); [frame_prim|].
  intros self a3 w3 _. unfold read_local.
  destruct (D_mean_real_out l), (D_mean_fake_out l), (D_G_mean_out l); frame_prim.
Qed.

(** ** The loop over the epochs *)

Lemma range_nil lo hi : hi <= lo -> range lo hi = [].
Proof.
  intros H. unfold range. by replace (Z.to_nat (hi - lo)) with 0%nat by lia.
Qed.

Lemma range_cons lo hi : lo < hi -> range lo hi = lo :: range (lo + 1) hi.
Proof.
  intros H. unfold range.
  replace (Z.to_nat (hi - lo)) with (S (Z.to_nat (hi - (lo + 1)))) by lia.
  rewrite <- cons_seq, <- seq_shift. simpl. rewrite map_map.
  f_equal; [lia|]. apply map_ext. intros i. lia.
Qed.

Lemma range_app lo mid hi :
  lo <= mid -> mid <= hi -> range lo hi = range lo mid ++ range mid hi.
Proof.
  intros H1 H2. remember (Z.to_nat (mid - lo)) as n eqn:Hn.
  revert lo H1 Hn. induction n as [|n IH]; intros lo H1 Hn.
  - assert (mid = lo) as -> by lia. by rewrite (range_nil lo lo).
  - rewrite (range_cons lo hi) by lia. rewrite (range_cons lo mid) by lia.
    simpl. f_equal. apply IH; lia.
Qed.

Lemma elem_of_range x lo hi : x ∈ range lo hi -> lo <= x < hi.
Proof.
  unfold range. intros Hx. apply list_elem_of_In, in_map_iff in Hx.
  destruct Hx as (i & <- & Hi). apply in_seq in Hi. lia.
Qed.

Lemma for_each_app {A} (xs ys : list A) (body : A -> M unit) (a : agent) (w : world) :
  for_each (xs ++ ys) body a w =
    match for_each xs body a w with
    | (Ok _, a', w') => for_each ys body a' w'
    | (Raise e, a', w') => (Raise e, a', w')
    end.
Proof.
  revert a w. induction xs as [|x xs IH]; intros a w; simpl; [done|].
  unfold bind. destruct (body x a w) as [[[[]|e] a1] w1]; [apply IH|done].
Qed.

Lemma train_unfold (a : agent) (w : world) :
  train a w =
    for_each (range (current_epoch a) (max_epoch (config_of a))) epoch_body a w.
Proof. reflexivity. Qed.

Lemma save_checkpoint_default_spec (a : agent) (w : world) :
  save_checkpoint_default a w =
    (Ok tt, a,
     set_disk (fs_replay (save_ops a "checkpoint.pth.tar" 0) (disk w))
       (fs_log w ++ save_ops a "checkpoint.pth.tar" 0) w).
Proof.
  unfold save_checkpoint_default.
  destruct (save_checkpoint_spec "checkpoint.pth.tar" 0 a w) as (r & Hs & [->|(_ & Hb & _)]);
    [exact Hs|done].
Qed.

Lemma epoch_body_completes e (a : agent) (w : world) :
  is_Some (model a) ->
  loader (dataloader_of a) ≠ [] ->
  no_sigint_within (length (loader (dataloader_of a))) w ->
  exists a' w',
    epoch_body e a w = (Ok tt, a', w') ∧
    current_epoch a' = e ∧
    current_iteration a' =
      current_iteration a + Z.of_nat (length (loader (dataloader_of a))) ∧
    config_of a' = config_of a ∧
    sigint w' = sigint_after (length (loader (dataloader_of a))) w ∧
    disk w' = fs_replay (save_ops a' "checkpoint.pth.tar" 0) (disk w) ∧
    fs_log w' = fs_log w ++ save_ops a' "checkpoint.pth.tar" 0.
Proof.
  intros Hm Hne Hs.
  destruct (train_one_epoch_completes (set_current_epoch e a) w Hm Hne Hs)
    as (a' & w' & Ht & Hi & Hsig).
  pose proof (train_one_epoch_frame (set_current_epoch e a) w) as Hf.
  unfold preserved, agent_after, world_after in Hf. rewrite Ht in Hf.
  destruct Hf as (Hcfg & _ & He & _ & _ & Hd & Hl). simpl in *.
  eexists a', _. unfold epoch_body. unfold bind at 1. simpl.
  unfold bind at 1. rewrite Ht. rewrite save_checkpoint_default_spec.
  split; [reflexivity|]. simpl. rewrite Hd, Hl. by repeat split.
Qed.

Lemma epoch_body_interrupted e (a : agent) (w : world) (k : nat) :
  is_Some (model a) ->
  sigint w = Some k -> (k < length (loader (dataloader_of a)))%nat ->
  exists a' w',
    epoch_body e a w = (Raise KeyboardInterrupt, a', w') ∧
    current_epoch a' = e ∧
    current_iteration a' = current_iteration a + Z.of_nat k ∧
    config_of a' = config_of a ∧
    sigint w' = None ∧ disk w' = disk w ∧ fs_log w' = fs_log w.
Proof.
  intros Hm Hs Hk.
  destruct (train_one_epoch_interrupted (set_current_epoch e a) w k Hm Hs Hk)
    as (a' & w' & Ht & Hi & Hsig).
  pose proof (train_one_epoch_frame (set_current_epoch e a) w) as Hf.
  unfold preserved, agent_after, world_after in Hf. rewrite Ht in Hf.
  destruct Hf as (Hcfg & _ & He & _ & _ & Hd & Hl). simpl in *.
  exists a', w'. unfold epoch_body. unfold bind at 1. simpl.
  unfold bind at 1. rewrite Ht. by repeat split.
Qed.

Lemma epoch_body_no_model e (a : agent) (w : world) :
  model a = None ->
  epoch_body e a w =
    (Raise (AttributeError "model"), set_current_epoch e a,
     set_stdout (stdout w ++ [TqdmOpen e (num_iterations (dataloader_of a))]) w).
Proof.
  intros Hm. unfold epoch_body. unfold bind at 1. simpl. unfold bind at 1.
  by rewrite train_one_epoch_no_model.
Qed.

(** *** What the whole run keeps *)

Lemma run_frame_refl (a : agent) (w : world) : run_frame a w a w.
Proof. by repeat split. Qed.

Lemma run_frame_trans (a : agent) (w : world) a1 w1 a2 w2 :
  run_frame a w a1 w1 -> run_frame a1 w1 a2 w2 -> run_frame a w a2 w2.
Proof.
  unfold run_frame. intros (?&?&?&?) (?&?&?&?). repeat split; try congruence. auto.
Qed.

Lemma save_checkpoint_self file_name is_best (a : agent) (w : world) :
  agent_after (save_checkpoint file_name is_best) a w = a.
Proof.
  unfold agent_after.
  destruct (save_checkpoint_spec file_name is_best a w) as (r & -> & _). done.
Qed.

Lemma epoch_body_run_frame e (a : agent) (w : world) :
  preserved run_frame (epoch_body e) a w.
Proof.
  unfold epoch_body.
  apply (preserved_bind run_frame run_frame_trans).
  { unfold preserved, agent_after, world_after, run_frame. simpl. by repeat split. }
  intros _ a1 w1 _.
  apply (preserved_bind run_frame run_frame_trans).
  { pose proof (train_one_epoch_frame a1 w1) as (?&?&?&?&?&?&?).
    unfold preserved, run_frame. by repeat split. }
  intros _ a2 w2 _. unfold preserved, save_checkpoint_default.
  rewrite save_checkpoint_self. unfold run_frame. by repeat split.
Qed.

Lemma for_each_epochs_run_frame xs (a : agent) (w : world) :
  preserved run_frame (for_each xs epoch_body) a w.
Proof.
  apply (preserved_for_each run_frame run_frame_refl run_frame_trans).
  intros. apply epoch_body_run_frame.
Qed.

Lemma save_checkpoint_disk_path file_name is_best (a : agent) (w : world) :
  disk (save_checkpoint file_name is_best a w).2 !! ckpt_path a file_name
  = Some (Pickled (state_of a)).
Proof.
  destruct (save_checkpoint_spec file_name is_best a w) as (r & -> & _).
  simpl. apply save_ops_disk_path.
Qed.

(** ** The claims on checkpoints and construction *)

(** C1, as amended.  Loading a checkpoint and saving at once, with no
    training step in between, writes back the loaded iteration count,
    parameters and optimiser states unchanged, and an epoch field that is
    the loaded one plus one. *)
Theorem load_then_save_bumps_epoch (file_name : string) (is_best : Z)
    (a : agent) (w : world) (c : checkpoint P O) :
  disk w !! ckpt_path a file_name = Some (Pickled c) ->
  result_of (load_checkpoint file_name) a w = Ok tt ∧
  disk (world_after (save_checkpoint file_name is_best)
          (agent_after (load_checkpoint file_name) a w)
          (world_after (load_checkpoint file_name) a w))
    !! ckpt_path a file_name
  = Some (Pickled {| epoch := epoch c + 1; iteration := iteration c;
                     G_state_dict := G_state_dict c; G_optimizer := G_optimizer c;
                     D_state_dict := D_state_dict c; D_optimizer := D_optimizer c |}).
Proof.
  intros Hc. unfold result_of, agent_after, world_after.
  rewrite (load_checkpoint_pickled _ _ _ _ Hc). cbn [fst snd]. split; [done|].
  etransitivity; [apply (save_checkpoint_disk_path file_name is_best (loaded c a))|done].
Qed.


(** The constructor on a directory without a readable checkpoint. *)
Lemma init_without_checkpoint (cfg : config) (w : world) :
  seed cfg = None -> cuda_is_available w && cuda_cfg cfg = false ->
  disk w !! String.append (checkpoint_dir cfg) (checkpoint_file cfg) = None ∨
  disk w !! String.append (checkpoint_dir cfg) (checkpoint_file cfg) = Some Unreadable ->
  exists a w',
    __init__ cfg w = (Ok a, w') ∧
    current_epoch a = 0 ∧ current_iteration a = 0 ∧
    weights (netG a) = Generator cfg ∧ weights (netD a) = Discriminator cfg ∧
    optimG a = Adam (learning_rate cfg) (beta1 cfg, beta2 cfg) ∧
    optimD a = Adam (learning_rate cfg) (beta1 cfg, beta2 cfg) ∧
    model a = None ∧ disk w' = disk w.
Proof.
  intros Hseed Hcuda Hd. unfold __init__. rewrite Hseed. simpl. rewrite Hcuda.
  match goal with
  | |- context [load_checkpoint ?f ?a ?w] =>
      rewrite (load_checkpoint_missing f a w)
  end.
  - eexists _, _. split; [reflexivity|]. simpl. repeat split.
    by destruct (cuda_is_available w && negb (cuda_cfg cfg)).
  - unfold ckpt_path. simpl.
    by destruct (cuda_is_available w && negb (cuda_cfg cfg)).
Qed.

(** C7, as amended.  A save writes the state with one [torch.save]
    straight into the destination file: the file is opened, which
    truncates it, and then filled; there is no temporary file and no
    rename, and a reader that comes in between finds a truncated file.
    Once the save is over the file holds the state, and when [is_best] is
    set the file has been copied to [model_best.pth.tar] as well. *)
Theorem save_checkpoint_writes_in_place (file_name : string) (is_best : Z)
    (a : agent) (w : world) :
  fs_log (world_after (save_checkpoint file_name is_best) a w)
    = fs_log w ++ save_ops a file_name is_best ∧
  disk (world_after (save_checkpoint file_name is_best) a w)
    = fs_replay (save_ops a file_name is_best) (disk w) ∧
  (exists rest, save_ops a file_name is_best =
     OpenWrite (ckpt_path a file_name)
       :: Dump (ckpt_path a file_name) (state_of a) :: rest) ∧
  reader_sees [OpenWrite (ckpt_path a file_name)] (disk w) (ckpt_path a file_name)
    = Raise EOFError ∧
  reader_sees (save_ops a file_name is_best) (disk w) (ckpt_path a file_name)
    = Ok (state_of a) ∧
  (is_best ≠ 0 ->
   reader_sees (save_ops a file_name is_best) (disk w) (best_path a)
     = Ok (state_of a)).
Proof.
  unfold world_after.
  destruct (save_checkpoint_spec file_name is_best a w) as (r & -> & _). simpl.
  split; [done|]. split; [done|]. split; [by eexists|].
  unfold reader_sees. split; [by map_simpl|].
  rewrite save_ops_disk_path. split; [done|].
  intros Hb. by rewrite save_ops_disk_best.
Qed.

(** C9.  With a seed in the configuration the constructor raises: it
    reads [self.manual_seed], which only the no-seed branch binds.  No
    object is returned, so no training starts, and nothing has been
    written.  A constructor that returns had no seed configured. *)
Theorem init_raises_when_seed_given (cfg : config) (w : world) :
  (is_Some (seed cfg) ->
   exists w', __init__ cfg w = (Raise (AttributeError "manual_seed"), w') ∧
              disk w' = disk w ∧ summary w' = summary w ∧
              entered (stdout w') = entered (stdout w)) ∧
  (forall a w', __init__ cfg w = (Ok a, w') -> seed cfg = None).
Proof.
  split.
  - intros [s Hs]. unfold __init__. rewrite Hs. simpl.
    eexists. split; [reflexivity|].
    destruct (cuda_is_available w && negb (cuda_cfg cfg)); simpl;
      repeat split; try done.
    unfold entered. rewrite omap_app. simpl. by rewrite app_nil_r.
  - intros a w'. unfold __init__. by destruct (seed cfg).
Qed.

(** ** The claims on the training step *)

Lemma meter_val_update (v : tensor P) (m : AverageMeter P) :
  meter_val (meter_update v m) = v.
Proof. unfold meter_val, meter_update. apply last_last. Qed.

(** C4.  In a step, the discriminator's fake loss is taken on the
    detached generator output, so its back-propagation reaches the
    discriminator and not the generator; the discriminator's optimiser
    steps once, on the gradient of the real and the fake loss together;
    the generator's loss is the updated discriminator run again on the
    same fake batch, not detached, against the real label, and the
    generator's optimiser steps on the gradient of that loss alone. *)
Theorem train_step_protocol (curr_it : Z) (b : nat) (l : locals)
    (a : agent) (w : world) :
  step_loss_D_fake a w =
    BCE (Forward NetD (weights (netD a)) (Detach (step_fake a w)))
        (Full [batch_size a] (fake_label a)) ∧
  reaches NetG (step_loss_D_fake a w) = false ∧
  reaches NetD (step_loss_D_fake a w) = true ∧
  (weights (netD (agent_after (train_step curr_it (Batch b) l) a w)),
   optimD (agent_after (train_step curr_it (Batch b) l) a w)) = step_D (Batch b) a w ∧
  step_loss_G (Batch b) a w =
    BCE (Forward NetD (step_D (Batch b) a w).1 (step_fake a w))
        (Full [batch_size a] (real_label a)) ∧
  reaches NetG (step_loss_G (Batch b) a w) = true ∧
  grad (netG (agent_after (train_step curr_it (Batch b) l) a w)) = [step_loss_G (Batch b) a w] ∧
  (weights (netG (agent_after (train_step curr_it (Batch b) l) a w)),
   optimG (agent_after (train_step curr_it (Batch b) l) a w)) = step_G (Batch b) a w.
Proof.
  unfold agent_after, step_G, step_loss_G, step_D, step_loss_D_fake,
    step_loss_D_real, step_fake, step_noise.
  unfold_step. unfold accumulate. simpl.
  destruct (cuda a); simpl; destruct_adam;
    destruct (curr_it mod 100 =? 0); simpl; repeat split; done.
Qed.

Lemma train_step_summary (curr_it : Z) (b : nat) (l : locals)
    (a : agent) (w : world) :
  summary (world_after (train_step curr_it (Batch b) l) a w) =
    summary w ++ (if curr_it mod 100 =? 0 then step_telemetry curr_it (Batch b) a w else []).
Proof.
  unfold world_after, step_telemetry, step_G, step_loss_G, step_D,
    step_loss_D_fake, step_loss_D_real, step_fake, step_noise.
  unfold_step. unfold accumulate. simpl.
  destruct (cuda a); simpl; destruct_adam;
    destruct (curr_it mod 100 =? 0); simpl;
    rewrite ?meter_val_update, <- ?app_assoc, ?app_nil_r; done.
Qed.

(** ** The console of a run *)

Lemma entered_app (l1 l2 : list (event P)) :
  entered (l1 ++ l2) = entered l1 ++ entered l2.
Proof. apply omap_app. Qed.

Lemma entered_open ep n (l : list (event P)) :
  entered (TqdmOpen ep n :: l) = ep :: entered l.
Proof. reflexivity. Qed.

Lemma silent_refl (a : agent) (w : world) : silent a w a w.
Proof. by split. Qed.

Lemma silent_trans (a : agent) (w : world) a1 w1 a2 w2 :
  silent a w a1 w1 -> silent a1 w1 a2 w2 -> silent a w a2 w2.
Proof. unfold silent. intros [? ?] [? ?]. split; congruence. Qed.

Lemma train_step_silent i x l (a : agent) (w : world) :
  preserved silent (train_step i x l) a w.
Proof.
  unfold preserved, agent_after, world_after, silent.
  unfold_step. simpl. destruct_adam.
  destruct (i mod 100 =? 0); simpl; by split.
Qed.

Lemma check_signals_silent (a : agent) (w : world) :
  preserved silent check_signals a w.
Proof.
  unfold preserved, agent_after, world_after, silent. unfold_step. simpl.
  destruct (sigint w) as [[|k]|]; simpl; by split.
Qed.

Lemma for_enumerate_silent xs i l (a : agent) (w : world) :
  preserved silent (for_enumerate train_step i xs l) a w.
Proof.
  apply (preserved_for_enumerate silent silent_refl silent_trans).
  - intros. apply check_signals_silent.
  - intros. apply train_step_silent.
Qed.

Lemma epoch_loop_stdout (a : agent) (w : world) :
  stdout (world_after epoch_loop a w) =
    stdout w ++ [TqdmOpen (current_epoch a) (num_iterations (dataloader_of a))] ∧
  current_epoch (agent_after epoch_loop a w) = current_epoch a.
Proof.
  unfold agent_after, world_after. destruct (model a) as [m|] eqn:Hm.
  - rewrite (epoch_loop_unfold _ _ _ Hm).
    match goal with
    | |- context [for_enumerate ?b ?i ?xs ?l ?a0 ?w0] =>
        destruct (for_enumerate_silent xs i l a0 w0) as [He Hs]
    end.
    unfold agent_after, world_after in *. by rewrite He, Hs.
  - by rewrite (epoch_loop_no_model _ _ Hm).
Qed.

Lemma train_one_epoch_stdout (a : agent) (w : world) :
  exists rest,
    stdout (world_after train_one_epoch a w) =
      stdout w ++ TqdmOpen (current_epoch a) (num_iterations (dataloader_of a)) :: rest ∧
    entered rest = [] ∧
    current_epoch (agent_after train_one_epoch a w) = current_epoch a.
Proof.
  destruct (epoch_loop_stdout a w) as [Hs He].
  unfold agent_after, world_after, train_one_epoch, read_local in *.
  rewrite bind_eq. destruct (epoch_loop a w) as [[[l|e] a1] w1]; simpl in *.
  - unfold_py. simpl.
    destruct (D_mean_real_out l), (D_mean_fake_out l), (D_G_mean_out l); simpl;
      rewrite Hs, <- ?app_assoc; simpl; eexists; (split; [reflexivity|by split]).
  - exists []. by rewrite Hs.
Qed.

Lemma epoch_body_stdout e (a : agent) (w : world) :
  exists rest,
    stdout (world_after (epoch_body e) a w) =
      stdout w ++ TqdmOpen e (num_iterations (dataloader_of a)) :: rest ∧
    entered rest = [].
Proof.
  destruct (train_one_epoch_stdout (set_current_epoch e a) w) as (rest & Hs & Hr & _).
  unfold agent_after, world_after, epoch_body in *.
  rewrite bind_eq. simpl. rewrite bind_eq.
  destruct (train_one_epoch (set_current_epoch e a) w) as [[[[]|ex] a1] w1]; simpl in *.
  - eauto.
  - eauto.
Qed.

Lemma for_each_epochs_stdout xs : forall (a : agent) (w : world),
  exists new,
    stdout (world_after (for_each xs epoch_body) a w) = stdout w ++ new ∧
    entered new `prefix_of` xs ∧
    (forall x xs', xs = x :: xs' -> exists n rest, new = TqdmOpen x n :: rest).
Proof.
  induction xs as [|x xs IH]; intros a w.
  - exists []. unfold world_after. simpl. rewrite app_nil_r.
    split; [done|]. split; [apply prefix_nil|done].
  - destruct (epoch_body_stdout x a w) as (rest & Hs & Hr).
    unfold world_after in *. simpl. unfold bind.
    destruct (epoch_body x a w) as [[[[]|ex] a1] w1]; simpl in *.
    + destruct (IH a1 w1) as (new & Hn & Hp & _).
      exists (TqdmOpen x (num_iterations (dataloader_of a)) :: rest ++ new).
      rewrite Hn, Hs, <- app_assoc. split; [done|]. split.
      * rewrite entered_open, entered_app, Hr. simpl. by apply prefix_cons.
      * intros y ys [= <- <-]. eauto.
    + exists (TqdmOpen x (num_iterations (dataloader_of a)) :: rest).
      split; [done|]. split.
      * rewrite entered_open, Hr. apply prefix_cons, prefix_nil.
      * intros y ys [= <- <-]. eauto.
Qed.

Lemma run_stdout (a : agent) (w : world) :
  exists new,
    stdout (world_after run a w) = stdout w ++ new ∧
    entered new `prefix_of` range (current_epoch a) (max_epoch (config_of a)) ∧
    (current_epoch a < max_epoch (config_of a) ->
     exists n rest, new = TqdmOpen (current_epoch a) n :: rest).
Proof.
  destruct (for_each_epochs_stdout
              (range (current_epoch a) (max_epoch (config_of a))) a w)
    as (new & Hs & Hp & Hh).
  unfold world_after, run, try_except in *. rewrite train_unfold.
  destruct (for_each _ epoch_body a w) as [[[[]|e] a1] w1]; simpl in *.
  - exists new. split; [done|]. split; [done|]. intros Hlt.
    eapply Hh. by apply range_cons.
  - destruct (is_KeyboardInterrupt e); simpl.
    + exists (new ++ [PrintCtrlC]). rewrite Hs, <- app_assoc. split; [done|]. split.
      * rewrite entered_app. simpl. by rewrite app_nil_r.
      * intros Hlt. destruct (Hh _ _ (range_cons _ _ Hlt)) as (n & rest & ->).
        by exists n, (rest ++ [PrintCtrlC]).
    + exists new. split; [done|]. split; [done|]. intros Hlt.
      eapply Hh. by apply range_cons.
Qed.

(** ** The claims on whole runs *)

Lemma finalize_spec (a : agent) (w : world) :
  exists w',
    finalize a w = (Ok tt, a, w') ∧
    disk w' = fs_replay (save_ops a "checkpoint.pth.tar" 0) (disk w) ∧
    fs_log w' = fs_log w ++ save_ops a "checkpoint.pth.tar" 0 ∧
    summary w' = summary w ∧
    stdout w' =
      stdout w ++ [PrintFinalizing;
                   ExportScalars (String.append (summary_dir (config_of a)) "all_scalars.json");
                   WriterClose; LoaderFinalize].
Proof.
  unfold finalize. rewrite bind_eq. unfold print at 1, modify_world at 1.
  rewrite bind_eq, save_checkpoint_default_spec. unfold_py. simpl.
  eexists. split; [reflexivity|]. simpl. repeat split.
  by rewrite <- !app_assoc.
Qed.

(** C10.  A checkpoint written by [save_checkpoint] stores the epoch
    counter of that moment plus one; a later load sets the epoch counter
    to the stored value, and [run] then iterates over the epochs from the
    stored value on: the first epoch it enters, if any, is the stored
    one, and the epoch during which the save happened is not entered
    again. *)
Theorem resume_begins_at_stored_epoch (file_name : string) (is_best : Z)
    (a : agent) (w : world) (b : agent) (wb : world) :
  checkpoint_dir (config_of b) = checkpoint_dir (config_of a) ->
  disk wb !! ckpt_path a file_name =
    disk (world_after (save_checkpoint file_name is_best) a w) !! ckpt_path a file_name ->
  disk wb !! ckpt_path a file_name = Some (Pickled (state_of a)) ∧
  epoch (state_of a) = current_epoch a + 1 ∧
  current_epoch (agent_after (load_checkpoint file_name) b wb) = current_epoch a + 1 ∧
  exists new,
    stdout (world_after run (agent_after (load_checkpoint file_name) b wb)
              (world_after (load_checkpoint file_name) b wb))
      = stdout (world_after (load_checkpoint file_name) b wb) ++ new ∧
    entered new `prefix_of` range (current_epoch a + 1) (max_epoch (config_of b)) ∧
    (current_epoch a + 1 < max_epoch (config_of b) ->
     exists n rest, new = TqdmOpen (current_epoch a + 1) n :: rest) ∧
    current_epoch a ∉ entered new.
Proof.
  intros Hdir Hdisk. unfold world_after at 1 in Hdisk.
  rewrite save_checkpoint_disk_path in Hdisk.
  split; [exact Hdisk|]. split; [done|].
  assert (ckpt_path b file_name = ckpt_path a file_name) as Hp.
  { unfold ckpt_path. by rewrite Hdir. }
  rewrite <- Hp in Hdisk.
  pose proof (load_checkpoint_pickled _ _ _ _ Hdisk) as Hl.
  unfold agent_after at 1 2, world_after at 2 3. rewrite Hl. cbn [fst snd].
  split; [done|].
  match goal with
  | |- context [world_after run ?b1 ?w1] =>
      destruct (run_stdout b1 w1) as (new & Hs & Hpre & Hh)
  end.
  exists new. split; [exact Hs|]. split; [exact Hpre|]. split; [exact Hh|].
  intros Hin. destruct Hpre as [tl Hpre].
  assert (current_epoch a ∈ range (current_epoch (loaded (state_of a) b))
                                   (max_epoch (config_of (loaded (state_of a) b)))) as Hr.
  { rewrite Hpre. apply elem_of_app. by left. }
  apply elem_of_range in Hr. simpl in Hr. lia.
Qed.

(** C2, as amended.  When a run is cancelled in the middle of an epoch,
    after [q] epochs of this run have completed and [k] steps of the next
    one, [run] returns normally and has written nothing since the save of
    the last completed epoch: the checkpoint directory is as that save
    left it.  The [finalize] that follows then overwrites
    [checkpoint.pth.tar] with the state at the moment of cancellation: its
    epoch field is the cancelled epoch plus one and its iteration count
    includes the [k] steps of the cancelled epoch. *)
Theorem cancelled_run_then_finalize (a : agent) (w : world) (q k : nat)
    (a1 : agent) (w1 : world) :
  is_Some (model a) ->
  current_epoch a + Z.of_nat q < max_epoch (config_of a) ->
  for_each (range (current_epoch a) (current_epoch a + Z.of_nat q)) epoch_body a w
    = (Ok tt, a1, w1) ->
  sigint w1 = Some k -> (k < length (loader (dataloader_of a)))%nat ->
  exists a2 w2 w3,
    run a w = (Ok tt, a2, w2) ∧
    disk w2 = disk w1 ∧ fs_log w2 = fs_log w1 ∧
    current_epoch a2 = current_epoch a + Z.of_nat q ∧
    current_iteration a2 = current_iteration a1 + Z.of_nat k ∧
    finalize a2 w2 = (Ok tt, a2, w3) ∧
    disk w3 !! ckpt_path a "checkpoint.pth.tar" = Some (Pickled (state_of a2)) ∧
    epoch (state_of a2) = current_epoch a + Z.of_nat q + 1 ∧
    iteration (state_of a2) = current_iteration a1 + Z.of_nat k.
Proof.
  intros Hm Hlt Hpre Hsig Hk.
  pose proof (for_each_epochs_run_frame
                (range (current_epoch a) (current_epoch a + Z.of_nat q)) a w) as Hf.
  unfold preserved, agent_after, world_after in Hf. rewrite Hpre in Hf.
  destruct Hf as (Hcfg & Hld & _ & Hm1). simpl in Hcfg, Hld, Hm1.
  rewrite <- Hld in Hk.
  destruct (epoch_body_interrupted (current_epoch a + Z.of_nat q) a1 w1 k
              (Hm1 Hm) Hsig Hk) as (a2 & w2 & Hb & He & Hi & Hcfg2 & _ & Hd & Hl).
  assert (train a w = (Raise KeyboardInterrupt, a2, w2)) as Ht.
  { rewrite train_unfold.
    rewrite (range_app (current_epoch a) (current_epoch a + Z.of_nat q)) by lia.
    rewrite for_each_app, Hpre. rewrite range_cons by lia. simpl.
    by rewrite bind_eq, Hb. }
  destruct (finalize_spec a2 (set_stdout (stdout w2 ++ [PrintCtrlC]) w2))
    as (w3 & Hfin & Hd3 & _).
  exists a2, (set_stdout (stdout w2 ++ [PrintCtrlC]) w2), w3.
  split. { unfold run, try_except. rewrite Ht. reflexivity. }
  split; [exact Hd|]. split; [exact Hl|]. split; [exact He|]. split; [exact Hi|].
  split; [exact Hfin|]. split.
  - rewrite Hd3.
    assert (ckpt_path a "checkpoint.pth.tar" = ckpt_path a2 "checkpoint.pth.tar") as ->.
    { unfold ckpt_path. by rewrite Hcfg2, Hcfg. }
    apply save_ops_disk_path.
  - simpl. split; lia.
Qed.

(** C5, as amended.  For a run from epoch 0 and iteration 0 with
    [max_epoch] 1 and two batches, on an object whose [model] attribute is
    bound: the epoch records two generator and two discriminator losses,
    the run returns, the iteration counter ends at 2, the epoch counter
    ends at 0, and the checkpoint directory, empty before, holds exactly
    one file, whose epoch field is 1. *)
Theorem one_epoch_two_batches (a : agent) (w : world) (b0 b1 : nat) :
  is_Some (model a) ->
  current_epoch a = 0 -> current_iteration a = 0 ->
  max_epoch (config_of a) = 1 ->
  loader (dataloader_of a) = [b0; b1] ->
  sigint w = None -> disk w = ∅ ->
  (exists l a' w',
     epoch_loop a w = (Ok l, a', w') ∧
     meter_count (epoch_lossD l) = 2%nat ∧ meter_count (epoch_lossG l) = 2%nat) ∧
  exists a' w',
    run a w = (Ok tt, a', w') ∧
    current_iteration a' = 2 ∧ current_epoch a' = 0 ∧
    disk w' = {[ ckpt_path a "checkpoint.pth.tar" := Pickled (state_of a') ]} ∧
    epoch (state_of a') = 1 ∧ iteration (state_of a') = 2.
Proof.
  intros Hm He Hi Hmax Hld Hsig Hdisk.
  assert (no_sigint_within (length (loader (dataloader_of a))) w) as Hns.
  { unfold no_sigint_within. by rewrite Hsig. }
  split.
  - destruct (epoch_loop_completes a w Hm Hns) as (l & a' & w' & Hl & _ & _ & HD & HG & _).
    rewrite Hld in HD, HG. by exists l, a', w'.
  - destruct (epoch_body_completes 0 a w Hm) as (a' & w' & Hb & He' & Hi' & Hcfg & _ & Hd & _);
      [by rewrite Hld|exact Hns|].
    exists a', w'. split.
    { unfold run, try_except. rewrite train_unfold, He, Hmax.
      rewrite (range_cons 0 1) by lia. rewrite (range_nil (0 + 1) 1) by lia.
      simpl. by rewrite bind_eq, Hb. }
    rewrite Hld in Hi'. simpl in Hi'.
    split; [lia|]. split; [done|]. split.
    + rewrite Hd, Hdisk. unfold save_ops. simpl.
      assert (ckpt_path a' "checkpoint.pth.tar" = ckpt_path a "checkpoint.pth.tar") as ->.
      { unfold ckpt_path. by rewrite Hcfg. }
      rewrite insert_insert_eq. by rewrite insert_empty.
    + simpl. split; lia.
Qed.

(** ** The evaluation noise *)

Lemma noise_kept_refl (a : agent) (w : world) : noise_kept a w a w.
Proof. split; [done|]. exists []. by rewrite app_nil_r. Qed.

Lemma noise_kept_trans (a : agent) (w : world) a1 w1 a2 w2 :
  noise_kept a w a1 w1 -> noise_kept a1 w1 a2 w2 -> noise_kept a w a2 w2.
Proof.
  intros (Hz1 & n1 & Hs1 & Hf1) (Hz2 & n2 & Hs2 & Hf2). split; [congruence|].
  exists (n1 ++ n2). rewrite Hs2, Hs1, <- app_assoc. split; [done|].
  apply Forall_app. split; [done|]. by rewrite <- Hz1.
Qed.

Lemma quiet_noise_kept (a : agent) (w : world) a' w' :
  quiet a w a' w' -> noise_kept a w a' w'.
Proof.
  intros [Hz Hs]. split; [done|]. exists []. by rewrite app_nil_r.
Qed.

Ltac quiet_prim :=
  apply quiet_noise_kept;
  unfold preserved, agent_after, world_after, quiet; unfold_step; simpl;
  try done.

Lemma train_step_noise_kept i x l (a : agent) (w : world) :
  preserved noise_kept (train_step i x l) a w.
Proof.
  unfold preserved, agent_after, world_after, noise_kept.
  unfold_step. simpl. destruct_adam.
  destruct (i mod 100 =? 0); simpl; (split; [done|]).
  - eexists. rewrite <- !app_assoc. split; [reflexivity|]. simpl.
    repeat constructor. simpl. eauto.
  - exists []. by rewrite app_nil_r.
Qed.

Lemma check_signals_noise_kept (a : agent) (w : world) :
  preserved noise_kept check_signals a w.
Proof. quiet_prim. destruct (sigint w) as [[|k]|]; by simpl. Qed.

Lemma for_enumerate_noise_kept xs i l (a : agent) (w : world) :
  preserved noise_kept (for_enumerate train_step i xs l) a w.
Proof.
  apply (preserved_for_enumerate noise_kept noise_kept_refl noise_kept_trans).
  - intros. apply check_signals_noise_kept.
  - intros. apply train_step_noise_kept.
Qed.

Lemma epoch_loop_noise_kept (a : agent) (w : world) :
  preserved noise_kept epoch_loop a w.
Proof.
  unfold preserved, agent_after, world_after.
  destruct (model a) as [m|] eqn:Hm.
  - rewrite (epoch_loop_unfold _ _ _ Hm).
    match goal with
    | |- context [for_enumerate ?b ?i ?xs ?l ?a0 ?w0] =>
        exact (for_enumerate_noise_kept xs i l a0 w0)
    end.
  - rewrite (epoch_loop_no_model _ _ Hm). simpl. apply quiet_noise_kept. by split.
Qed.

Lemma train_one_epoch_noise_kept (a : agent) (w : world) :
  preserved noise_kept train_one_epoch a w.
Proof.
  unfold train_one_epoch.
  apply (preserved_bind noise_kept noise_kept_trans); [apply epoch_loop_noise_kept|].
  intros l a1 w1 _.
  apply (preserved_bind noise_kept noise_kept_trans); [quiet_prim|].
  intros _ a2 w2 _.
  apply (preserved_bind noise_kept noise_kept_trans); [quiet_prim|].
  intros self a3 w3 _. unfold read_local.
  destruct (D_mean_real_out l), (D_mean_fake_out l), (D_G_mean_out l); quiet_prim.
Qed.

Lemma save_checkpoint_noise_kept file_name is_best (a : agent) (w : world) :
  preserved noise_kept (save_checkpoint file_name is_best) a w.
Proof.
  apply quiet_noise_kept. unfold preserved, agent_after, world_after.
  destruct (save_checkpoint_spec file_name is_best a w) as (r & -> & _). by split.
Qed.

Lemma load_checkpoint_noise_kept file_name (a : agent) (w : world) :
  preserved noise_kept (load_checkpoint file_name) a w.
Proof.
  quiet_prim. destruct (disk w !! _) as [[c| |]|]; by simpl.
Qed.

Lemma epoch_body_noise_kept e (a : agent) (w : world) :
  preserved noise_kept (epoch_body e) a w.
Proof.
  unfold epoch_body.
  apply (preserved_bind noise_kept noise_kept_trans); [quiet_prim|].
  intros _ a1 w1 _.
  apply (preserved_bind noise_kept noise_kept_trans); [apply train_one_epoch_noise_kept|].
  intros _ a2 w2 _. apply save_checkpoint_noise_kept.
Qed.

Lemma run_noise_kept (a : agent) (w : world) :
  preserved noise_kept run a w.
Proof.
  unfold run.
  apply (preserved_try_except noise_kept noise_kept_trans); [|intros; quiet_prim].
  unfold train.
  apply (preserved_bind noise_kept noise_kept_trans); [apply noise_kept_refl|].
  intros self a1 w1 _.
  apply (preserved_for_each noise_kept noise_kept_refl noise_kept_trans).
  intros. apply epoch_body_noise_kept.
Qed.

Lemma finalize_noise_kept (a : agent) (w : world) :
  preserved noise_kept finalize a w.
Proof.
  apply quiet_noise_kept. unfold preserved, agent_after, world_after.
  destruct (finalize_spec a w) as (w' & -> & _ & _ & Hs & _). by split.
Qed.

(** The evaluation noise of an object the constructor returns. *)
Lemma init_fixed_noise (cfg : config) (w0 : world) (a0 : agent) (w0' : world) :
  __init__ cfg w0 = (Ok a0, w0') ->
  fixed_noise a0 = Randn (torch_rng w0) [batch_size_cfg cfg; g_input_size cfg; 1; 1].
Proof.
  unfold __init__. destruct (seed cfg); simpl; [done|].
  destruct (cuda_is_available w0 && cuda_cfg cfg); [done|].
  match goal with
  | |- context [load_checkpoint ?f ?a1 ?w1] =>
      pose proof (load_checkpoint_noise_kept f a1 w1) as [Hz _];
      unfold agent_after in Hz;
      destruct (load_checkpoint f a1 w1) as [[[[]|e] a2] w2]
  end; [|done]. intros [= <- <-]. exact Hz.
Qed.

(** * Further properties *)

(** ** The constructor *)

(** The three ways a load can go, by what the path holds. *)
Lemma load_checkpoint_cases (file_name : string) (a : agent) (w : world) :
  (exists c, disk w !! ckpt_path a file_name = Some (Pickled c) ∧
     load_checkpoint file_name a w =
       (Ok tt, loaded c a,
        set_stdout (stdout w ++ [PrintLoading (ckpt_path a file_name)]
                      ++ [PrintLoaded (checkpoint_dir (config_of a)) (epoch c) (iteration c)]) w)) ∨
  ((disk w !! ckpt_path a file_name = None ∨
    disk w !! ckpt_path a file_name = Some Unreadable) ∧
   load_checkpoint file_name a w =
     (Ok tt, a,
      set_stdout (stdout w ++ [PrintLoading (ckpt_path a file_name);
                               PrintNoCheckpoint (checkpoint_dir (config_of a));
                               PrintFirstTime]) w)) ∨
  (disk w !! ckpt_path a file_name = Some Truncated ∧
   load_checkpoint file_name a w =
     (Raise EOFError, a,
      set_stdout (stdout w ++ [PrintLoading (ckpt_path a file_name)]) w)).
Proof.
  destruct (disk w !! ckpt_path a file_name) as [[c| |]|] eqn:E.
  - left. exists c. split; [done|]. by apply load_checkpoint_pickled.
  - right. right. split; [done|]. by apply load_checkpoint_truncated.
  - right. left. split; [by right|]. apply load_checkpoint_missing. by right.
  - right. left. split; [by left|]. apply load_checkpoint_missing. by left.
Qed.

(** What every object the constructor returns looks like. *)
Lemma init_ok_inv (cfg : config) (w : world) (a : agent) (w' : world) :
  __init__ cfg w = (Ok a, w') ->
  seed cfg = None ∧ cuda_is_available w && cuda_cfg cfg = false ∧
  disk w !! String.append (checkpoint_dir cfg) (checkpoint_file cfg) ≠ Some Truncated ∧
  config_of a = cfg ∧ model a = None ∧ dataloader_of a = CelebADataLoader cfg ∧
  disk w' = disk w ∧ summary w' = summary w.
Proof.
  unfold __init__. destruct (seed cfg) as [s|]; [done|]. simpl.
  destruct (cuda_is_available w && cuda_cfg cfg) eqn:Hcuda; [done|].
  match goal with
  | |- context [load_checkpoint ?f ?a0 ?w0] =>
      destruct (load_checkpoint_cases f a0 w0)
        as [(c & Hd & ->)|[(Hd & ->)|(Hd & ->)]]
  end; [| |done].
  - intros [= <- <-]. unfold ckpt_path in Hd. simpl in *.
    repeat split; try done.
    + intros Ht. destruct (cuda_is_available w && negb (cuda_cfg cfg));
        simpl in Hd; congruence.
    + by destruct (cuda_is_available w && negb (cuda_cfg cfg)).
    + by destruct (cuda_is_available w && negb (cuda_cfg cfg)).
  - intros [= <- <-]. unfold ckpt_path in Hd. simpl in *.
    repeat split; try done.
    + intros Ht. destruct (cuda_is_available w && negb (cuda_cfg cfg));
        simpl in Hd; destruct Hd; congruence.
    + by destruct (cuda_is_available w && negb (cuda_cfg cfg)).
    + by destruct (cuda_is_available w && negb (cuda_cfg cfg)).
Qed.

(** X1.  The constructor returns an object exactly when no seed is
    configured, CUDA is not both available and enabled, and the
    checkpoint file is not a truncated one: a given seed stops it at
    [self.manual_seed], CUDA at [self.vgg_model], and a truncated file at
    the [EOFError] that [load_checkpoint] lets through. *)
Theorem init_returns_iff (cfg : config) (w : world) :
  (exists a w', __init__ cfg w = (Ok a, w')) <->
  (seed cfg = None ∧ cuda_is_available w && cuda_cfg cfg = false ∧
   disk w !! String.append (checkpoint_dir cfg) (checkpoint_file cfg) ≠ Some Truncated).
Proof.
  split.
  - intros (a & w' & Hi). destruct (init_ok_inv _ _ _ _ Hi) as (?&?&?&_). done.
  - intros (Hseed & Hcuda & Hd). unfold __init__. rewrite Hseed. simpl. rewrite Hcuda.
    match goal with
    | |- context [load_checkpoint ?f ?a0 ?w0] =>
        destruct (load_checkpoint_cases f a0 w0)
          as [(c & _ & ->)|[(_ & ->)|(Ht & _)]]
    end; [by eexists _, _|by eexists _, _|].
    exfalso. apply Hd. unfold ckpt_path in Ht. simpl in Ht.
    by destruct (cuda_is_available w && negb (cuda_cfg cfg)).
Qed.

(** The constructor on a directory with a pickled checkpoint. *)
Lemma init_from_pickled (cfg : config) (w : world) (c : checkpoint P O) :
  seed cfg = None -> cuda_is_available w && cuda_cfg cfg = false ->
  disk w !! String.append (checkpoint_dir cfg) (checkpoint_file cfg) = Some (Pickled c) ->
  exists a w',
    __init__ cfg w = (Ok a, w') ∧
    current_epoch a = epoch c ∧ current_iteration a = iteration c ∧
    weights (netG a) = G_state_dict c ∧ optimG a = G_optimizer c ∧
    weights (netD a) = D_state_dict c ∧ optimD a = D_optimizer c ∧
    grad (netG a) = [] ∧ grad (netD a) = [] ∧
    fixed_noise a = Randn (torch_rng w) [batch_size_cfg cfg; g_input_size cfg; 1; 1] ∧
    disk w' = disk w ∧ fs_log w' = fs_log w ∧
    summary w' = summary w ∧ config_of a = cfg.
Proof.
  intros Hseed Hcuda Hd. unfold __init__. rewrite Hseed. simpl. rewrite Hcuda.
  match goal with
  | |- context [load_checkpoint ?f ?a0 ?w0] =>
      rewrite (load_checkpoint_pickled f a0 w0 c)
  end.
  - eexists _, _. split; [reflexivity|]. simpl. repeat split;
      by destruct (cuda_is_available w && negb (cuda_cfg cfg)).
  - unfold ckpt_path. simpl.
    by destruct (cuda_is_available w && negb (cuda_cfg cfg)).
Qed.


(** X2.  On a directory whose checkpoint file holds a pickled
    checkpoint, the constructor resumes from it: the epoch and iteration
    counters, both networks' parameters and both optimiser states are the
    stored ones, the gradient buffers are empty, the evaluation noise is
    the constructor's own draw, and nothing is written. *)
Theorem init_resumes_from_checkpoint (cfg : config) (w : world) (c : checkpoint P O) :
  seed cfg = None -> cuda_is_available w && cuda_cfg cfg = false ->
  disk w !! String.append (checkpoint_dir cfg) (checkpoint_file cfg) = Some (Pickled c) ->
  exists a w',
    __init__ cfg w = (Ok a, w') ∧
    current_epoch a = epoch c ∧ current_iteration a = iteration c ∧
    weights (netG a) = G_state_dict c ∧ optimG a = G_optimizer c ∧
    weights (netD a) = D_state_dict c ∧ optimD a = D_optimizer c ∧
    grad (netG a) = [] ∧ grad (netD a) = [] ∧
    fixed_noise a = Randn (torch_rng w) [batch_size_cfg cfg; g_input_size cfg; 1; 1] ∧
    disk w' = disk w ∧ fs_log w' = fs_log w.
Proof.
  intros Hseed Hcuda Hd.
  destruct (init_from_pickled cfg w c Hseed Hcuda Hd)
    as (a & w' & ? & ? & ? & ? & ? & ? & ? & ? & ? & ? & ? & ? & _).
  exists a, w'. by repeat split.
Qed.

(** An object whose [model] attribute is unbound stops at the first
    epoch it enters. *)
Lemma run_no_model (a : agent) (w : world) :
  model a = None -> current_epoch a < max_epoch (config_of a) ->
  run a w =
    (Raise (AttributeError "model"), set_current_epoch (current_epoch a) a,
     set_stdout (stdout w ++ [TqdmOpen (current_epoch a) (num_iterations (dataloader_of a))]) w).
Proof.
  intros Hm Hlt. unfold run, try_except. rewrite train_unfold.
  rewrite range_cons by done. simpl. rewrite bind_eq.
  by rewrite (epoch_body_no_model _ _ _ Hm).
Qed.

Lemma set_current_epoch_same (a : agent) : set_current_epoch (current_epoch a) a = a.
Proof. by destruct a. Qed.

(** X3.  No object the constructor returns can train: whenever the
    constructor succeeds and an epoch is left to run, [run] raises the
    [AttributeError] of [self.model] when it enters that epoch, before
    any step; the object is unchanged, the console has gained the line of
    the progress bar, and nothing is written. *)
Theorem constructed_agent_cannot_train (cfg : config) (w : world)
    (a : agent) (w' : world) :
  __init__ cfg w = (Ok a, w') ->
  current_epoch a < max_epoch cfg ->
  run a w' =
    (Raise (AttributeError "model"), a,
     set_stdout (stdout w' ++ [TqdmOpen (current_epoch a)
                                 (num_iterations (CelebADataLoader cfg))]) w').
Proof.
  intros Hi Hlt. destruct (init_ok_inv _ _ _ _ Hi) as (_&_&_& Hcfg & Hm & Hld & _).
  rewrite <- Hcfg in Hlt. rewrite (run_no_model a w' Hm Hlt).
  by rewrite set_current_epoch_same, Hld.
Qed.

(** ** More on checkpoints *)

(** X4.  A save followed by a load from the same directory is a round
    trip on the persisted state: the loading object gets the saver's
    iteration count, parameters and optimiser states and the saver's
    epoch counter plus one, and keeps its own gradient buffers, train
    flags, evaluation noise and [model] attribute. *)
Theorem save_then_load_restores (file_name : string) (is_best : Z)
    (a : agent) (w : world) (b : agent) :
  checkpoint_dir (config_of b) = checkpoint_dir (config_of a) ->
  result_of (load_checkpoint file_name) b
    (world_after (save_checkpoint file_name is_best) a w) = Ok tt ∧
  agent_after (load_checkpoint file_name) b
    (world_after (save_checkpoint file_name is_best) a w) = loaded (state_of a) b ∧
  current_epoch (loaded (state_of a) b) = current_epoch a + 1 ∧
  current_iteration (loaded (state_of a) b) = current_iteration a ∧
  weights (netG (loaded (state_of a) b)) = weights (netG a) ∧
  optimG (loaded (state_of a) b) = optimG a ∧
  weights (netD (loaded (state_of a) b)) = weights (netD a) ∧
  optimD (loaded (state_of a) b) = optimD a ∧
  grad (netG (loaded (state_of a) b)) = grad (netG b) ∧
  grad (netD (loaded (state_of a) b)) = grad (netD b) ∧
  fixed_noise (loaded (state_of a) b) = fixed_noise b ∧
  model (loaded (state_of a) b) = model b.
Proof.
  intros Hdir.
  assert (disk (world_after (save_checkpoint file_name is_best) a w)
            !! ckpt_path b file_name = Some (Pickled (state_of a))) as Hd.
  { unfold world_after, ckpt_path. rewrite Hdir.
    apply (save_checkpoint_disk_path file_name is_best a w). }
  unfold result_of, agent_after.
  rewrite (load_checkpoint_pickled _ _ _ _ Hd). simpl. by repeat split.
Qed.

Lemma append_inj_r (s x y : string) :
  String.append s x = String.append s y -> x = y.
Proof.
  induction s as [|c s IH]; simpl; [done|]. intros [= H]. by apply IH.
Qed.

Lemma ckpt_path_best_iff (a : agent) (file_name : string) :
  ckpt_path a file_name = best_path a <-> file_name = "model_best.pth.tar".
Proof.
  unfold best_path, ckpt_path. split; [apply append_inj_r|by intros ->].
Qed.

Lemma save_checkpoint_result (file_name : string) (is_best : Z) (a : agent) (w : world) :
  result_of (save_checkpoint file_name is_best) a w =
    if negb (is_best =? 0) && bool_decide (ckpt_path a file_name = best_path a)
    then Raise SameFileError else Ok tt.
Proof.
  unfold result_of, best_path, ckpt_path. unfold_py. simpl.
  destruct (is_best =? 0); simpl; [done|].
  case_bool_decide; simpl; [done|]. by map_simpl.
Qed.

Lemma save_checkpoint_disk (file_name : string) (is_best : Z) (a : agent) (w : world) :
  disk (world_after (save_checkpoint file_name is_best) a w)
  = fs_replay (save_ops a file_name is_best) (disk w).
Proof.
  unfold world_after.
  by destruct (save_checkpoint_spec file_name is_best a w) as (r & -> & _).
Qed.

(** The directory a save leaves, in closed form. *)
Lemma save_ops_replay (a : agent) (file_name : string) (is_best : Z)
    (d : gmap string (file P O)) :
  fs_replay (save_ops a file_name is_best) d =
    if negb (is_best =? 0) && negb (bool_decide (ckpt_path a file_name = best_path a))
    then <[best_path a := Pickled (state_of a)]>
           (<[ckpt_path a file_name := Pickled (state_of a)]> d)
    else <[ckpt_path a file_name := Pickled (state_of a)]> d.
Proof.
  unfold save_ops.
  destruct (negb (is_best =? 0) && negb (bool_decide (ckpt_path a file_name = best_path a)))
    eqn:Hc; simpl.
  - apply andb_true_iff in Hc as [_ Hc]. apply negb_true_iff in Hc.
    apply bool_decide_eq_false in Hc. map_simpl.
    by rewrite !insert_insert_eq.
  - by rewrite insert_insert_eq.
Qed.

(** X5.  Saving as the best checkpoint under the best-checkpoint name
    itself raises: the file is written first, then [shutil.copyfile] is
    asked to copy it onto itself, under one and the same path, and
    refuses with [SameFileError].  The object is unchanged and the
    directory differs from the one before in that file alone, which holds
    the state. *)
Theorem save_checkpoint_onto_best_raises (is_best : Z) (a : agent) (w : world) :
  is_best ≠ 0 ->
  result_of (save_checkpoint "model_best.pth.tar" is_best) a w = Raise SameFileError ∧
  agent_after (save_checkpoint "model_best.pth.tar" is_best) a w = a ∧
  disk (world_after (save_checkpoint "model_best.pth.tar" is_best) a w)
    = <[best_path a := Pickled (state_of a)]> (disk w).
Proof.
  intros Hb.
  rewrite save_checkpoint_result, save_checkpoint_self, save_checkpoint_disk,
    save_ops_replay.
  assert ((is_best =? 0) = false) as -> by lia.
  rewrite bool_decide_eq_true_2 by reflexivity. done.
Qed.

(** X6.  When a save is over, the directory is the one before it with
    the checkpoint path bound to the state, and also the best-checkpoint
    path when [is_best] is set: every other file is as it was and no
    truncated file is left behind. *)
Theorem save_checkpoint_final_directory (file_name : string) (is_best : Z)
    (a : agent) (w : world) :
  disk (world_after (save_checkpoint file_name is_best) a w) =
    if negb (is_best =? 0)
    then <[best_path a := Pickled (state_of a)]>
           (<[ckpt_path a file_name := Pickled (state_of a)]> (disk w))
    else <[ckpt_path a file_name := Pickled (state_of a)]> (disk w).
Proof.
  rewrite save_checkpoint_disk, save_ops_replay.
  destruct (is_best =? 0); simpl; [done|].
  case_bool_decide as Hp; simpl; [|done].
  rewrite <- Hp. by rewrite insert_insert_eq.
Qed.

(** X7.  Saving twice in a row leaves the directory that one save
    leaves. *)
Theorem save_checkpoint_twice (file_name : string) (is_best : Z)
    (a : agent) (w : world) :
  disk (world_after (save_checkpoint file_name is_best)
          (agent_after (save_checkpoint file_name is_best) a w)
          (world_after (save_checkpoint file_name is_best) a w))
  = disk (world_after (save_checkpoint file_name is_best) a w).
Proof.
  rewrite save_checkpoint_self, !save_checkpoint_disk, !save_ops_replay.
  destruct (negb (is_best =? 0) && negb (bool_decide (ckpt_path a file_name = best_path a)))
    eqn:Hc.
  - apply andb_true_iff in Hc as [_ Hc]. apply negb_true_iff in Hc.
    apply bool_decide_eq_false in Hc.
    apply map_eq. intros p. rewrite !lookup_insert.
    repeat case_decide; done.
  - by rewrite insert_insert_eq.
Qed.

(** ** More on runs *)

Lemma train_one_epoch_empty (a : agent) (w : world) m :
  model a = Some m -> loader (dataloader_of a) = [] ->
  train_one_epoch a w =
    (Raise (UnboundLocalError "D_mean_real_out"),
     set_model (Some (train_mode m)) a,
     set_stdout (stdout w ++ [TqdmOpen (current_epoch a) (num_iterations (dataloader_of a));
                              TqdmClose]) w).
Proof.
  intros Hm Hl. unfold train_one_epoch. rewrite bind_eq.
  rewrite (epoch_loop_unfold _ _ _ Hm), Hl. simpl.
  unfold_py. simpl. unfold set_stdout. simpl. by rewrite <- app_assoc.
Qed.

(** X8.  On an object whose [model] attribute is bound, with no Ctrl-C
    pending and a loader that yields no batch, an epoch cannot end: the
    closing print reads [D_mean_real_out], which only a step binds, and
    the [UnboundLocalError] leaves [run], which catches [KeyboardInterrupt]
    only.  No step is counted, and nothing is written to the summary or
    to the directory. *)
Theorem empty_loader_run_raises (a : agent) (w : world) :
  is_Some (model a) -> sigint w = None -> loader (dataloader_of a) = [] ->
  current_epoch a < max_epoch (config_of a) ->
  exists a' w',
    run a w = (Raise (UnboundLocalError "D_mean_real_out"), a', w') ∧
    current_iteration a' = current_iteration a ∧
    disk w' = disk w ∧ fs_log w' = fs_log w ∧
    summary w' = summary w ∧
    stdout w' = stdout w ++ [TqdmOpen (current_epoch a) (num_iterations (dataloader_of a));
                             TqdmClose].
Proof.
  intros [m Hm] _ Hl Hlt. unfold run, try_except. rewrite train_unfold.
  rewrite range_cons by done. simpl. rewrite bind_eq. unfold epoch_body.
  rewrite bind_eq. simpl. rewrite bind_eq.
  rewrite (train_one_epoch_empty (set_current_epoch (current_epoch a) a) w m Hm Hl).
  simpl. eexists _, _. split; [reflexivity|]. by repeat split.
Qed.

Lemma run_nothing_left (a : agent) (w : world) :
  max_epoch (config_of a) <= current_epoch a -> run a w = (Ok tt, a, w).
Proof.
  intros Hle. unfold run, try_except. rewrite train_unfold.
  by rewrite range_nil.
Qed.

(** X9.  Launching the program again after training has finished, on a
    checkpoint whose epoch field has reached [max_epoch]: the constructor
    resumes from it, [run] does nothing at all, and [finalize] rewrites
    the checkpoint with the same iteration count, parameters and
    optimiser states and an epoch field one higher.  The stored epoch
    grows with every such launch. *)
Theorem relaunch_after_completion (cfg : config) (w : world) (c : checkpoint P O) :
  seed cfg = None -> cuda_is_available w && cuda_cfg cfg = false ->
  checkpoint_file cfg = "checkpoint.pth.tar" ->
  disk w !! String.append (checkpoint_dir cfg) "checkpoint.pth.tar" = Some (Pickled c) ->
  max_epoch cfg <= epoch c ->
  exists a w1 w2,
    __init__ cfg w = (Ok a, w1) ∧
    run a w1 = (Ok tt, a, w1) ∧
    finalize a w1 = (Ok tt, a, w2) ∧
    disk w2 =
      <[String.append (checkpoint_dir cfg) "checkpoint.pth.tar" :=
          Pickled {| epoch := epoch c + 1; iteration := iteration c;
                     G_state_dict := G_state_dict c; G_optimizer := G_optimizer c;
                     D_state_dict := D_state_dict c; D_optimizer := D_optimizer c |}]>
        (disk w) ∧
    summary w2 = summary w.
Proof.
  intros Hseed Hcuda Hfile Hd Hmax. rewrite <- Hfile in Hd.
  destruct (init_from_pickled cfg w c Hseed Hcuda Hd)
    as (a & w1 & Hi & He & Hit & HG & HoG & HD & HoD & _ & _ & _ & Hd1 & _ & Hs1 & Hcfg).
  destruct (finalize_spec a w1) as (w2 & Hf & Hd2 & _ & Hs2 & _).
  exists a, w1, w2. split; [exact Hi|]. split.
  { apply run_nothing_left. rewrite Hcfg, He. exact Hmax. }
  split; [exact Hf|]. split; [|congruence].
  rewrite Hd2, save_ops_replay, Hd1. simpl. unfold ckpt_path, state_of, state_dict.
  by rewrite Hcfg, He, Hit, HG, HoG, HD, HoD.
Qed.

Lemma writes_only_checkpoint_refl (a : agent) (w : world) :
  writes_only_checkpoint a w a w.
Proof. by split. Qed.

Lemma writes_only_checkpoint_trans (a : agent) (w : world) a1 w1 a2 w2 :
  writes_only_checkpoint a w a1 w1 -> writes_only_checkpoint a1 w1 a2 w2 ->
  writes_only_checkpoint a w a2 w2.
Proof.
  intros [Hc1 Hd1] [Hc2 Hd2]. split; [congruence|]. intros p Hp.
  rewrite Hd2, Hd1; [done|done|]. unfold ckpt_path in *. by rewrite Hc1.
Qed.

Lemma save_default_writes_only_checkpoint (a : agent) (w : world) :
  preserved writes_only_checkpoint save_checkpoint_default a w.
Proof.
  unfold preserved, save_checkpoint_default. rewrite save_checkpoint_self.
  split; [done|]. intros p Hp.
  rewrite save_checkpoint_disk, save_ops_replay. simpl.
  by rewrite lookup_insert_ne by ne.
Qed.

Lemma epoch_body_writes_only_checkpoint e (a : agent) (w : world) :
  preserved writes_only_checkpoint (epoch_body e) a w.
Proof.
  unfold epoch_body.
  apply (preserved_bind writes_only_checkpoint writes_only_checkpoint_trans).
  { by split. }
  intros _ a1 w1 _.
  apply (preserved_bind writes_only_checkpoint writes_only_checkpoint_trans).
  { pose proof (train_one_epoch_frame a1 w1) as (Hc&_&_&_&_&Hd&_).
    split; [exact Hc|]. intros p _. by rewrite Hd. }
  intros _ a2 w2 _. apply save_default_writes_only_checkpoint.
Qed.

Lemma run_preserves_writes_only_checkpoint (a : agent) (w : world) :
  preserved writes_only_checkpoint run a w.
Proof.
  unfold run.
  apply (preserved_try_except writes_only_checkpoint writes_only_checkpoint_trans).
  - unfold train.
    apply (preserved_bind writes_only_checkpoint writes_only_checkpoint_trans);
      [apply writes_only_checkpoint_refl|].
    intros self a1 w1 _.
    apply (preserved_for_each writes_only_checkpoint
             writes_only_checkpoint_refl writes_only_checkpoint_trans).
    intros. apply epoch_body_writes_only_checkpoint.
  - intros. by split.
Qed.

(** X10.  The training loop and the shutdown write one file only: however
    [run] and [finalize] end, every path of the directory other than
    [checkpoint.pth.tar] holds what it held before; in particular
    [model_best.pth.tar] is never written, since no caller sets
    [is_best].  A load writes nothing at all. *)
Theorem run_writes_only_checkpoint (a : agent) (w : world) (file_name : string) :
  (forall p, p ≠ ckpt_path a "checkpoint.pth.tar" ->
             disk (world_after run a w) !! p = disk w !! p) ∧
  (forall p, p ≠ ckpt_path a "checkpoint.pth.tar" ->
             disk (world_after finalize a w) !! p = disk w !! p) ∧
  (ckpt_path a "checkpoint.pth.tar" ≠ best_path a) ∧
  disk (world_after (load_checkpoint file_name) a w) = disk w ∧
  fs_log (world_after (load_checkpoint file_name) a w) = fs_log w.
Proof.
  split; [apply run_preserves_writes_only_checkpoint|]. split.
  { intros p Hp. unfold world_after.
    destruct (finalize_spec a w) as (w' & -> & Hd & _). simpl.
    rewrite Hd, save_ops_replay. simpl. by rewrite lookup_insert_ne by ne. }
  split.
  { intros Hp. apply ckpt_path_best_iff in Hp. done. }
  unfold world_after.
  destruct (load_checkpoint_cases file_name a w)
    as [(c & _ & ->)|[(_ & ->)|(_ & ->)]]; by split.
Qed.

(** ** Steps, draws and epochs *)

Lemma steps_match_draws_refl (a : agent) (w : world) : steps_match_draws a w a w.
Proof. unfold steps_match_draws. repeat split; lia. Qed.

Lemma steps_match_draws_trans (a : agent) (w : world) a1 w1 a2 w2 :
  steps_match_draws a w a1 w1 -> steps_match_draws a1 w1 a2 w2 ->
  steps_match_draws a w a2 w2.
Proof.
  unfold steps_match_draws. intros (?&?&?) (?&?&?).
  split; [congruence|]. split; lia.
Qed.

Ltac draws_prim :=
  unfold preserved, agent_after, world_after, steps_match_draws; unfold_step; simpl;
  try (repeat split; lia).

Lemma train_step_steps_match_draws i x l (a : agent) (w : world) :
  preserved steps_match_draws (train_step i x l) a w.
Proof.
  draws_prim. destruct_adam.
  destruct (i mod 100 =? 0); simpl; repeat split; lia.
Qed.

Lemma check_signals_steps_match_draws (a : agent) (w : world) :
  preserved steps_match_draws check_signals a w.
Proof.
  draws_prim. destruct (sigint w) as [[|k]|]; simpl; repeat split; lia.
Qed.

Lemma for_enumerate_steps_match_draws xs i l (a : agent) (w : world) :
  preserved steps_match_draws (for_enumerate train_step i xs l) a w.
Proof.
  apply (preserved_for_enumerate steps_match_draws steps_match_draws_refl
           steps_match_draws_trans).
  - intros. apply check_signals_steps_match_draws.
  - intros. apply train_step_steps_match_draws.
Qed.

Lemma train_one_epoch_steps_match_draws (a : agent) (w : world) :
  preserved steps_match_draws train_one_epoch a w.
Proof.
  unfold train_one_epoch.
  apply (preserved_bind steps_match_draws steps_match_draws_trans).
  { unfold preserved, agent_after, world_after.
    destruct (model a) as [m|] eqn:Hm.
    - rewrite (epoch_loop_unfold _ _ _ Hm).
      match goal with
      | |- context [for_enumerate ?b ?i ?xs ?l ?a0 ?w0] =>
          exact (for_enumerate_steps_match_draws xs i l a0 w0)
      end.
    - rewrite (epoch_loop_no_model _ _ Hm). unfold steps_match_draws. simpl.
      repeat split; lia. }
  intros l a1 w1 _.
  apply (preserved_bind steps_match_draws steps_match_draws_trans); [draws_prim|].
  intros _ a2 w2 _.
  apply (preserved_bind steps_match_draws steps_match_draws_trans); [draws_prim|].
  intros self a3 w3 _. unfold read_local.
  destruct (D_mean_real_out l), (D_mean_fake_out l), (D_G_mean_out l); draws_prim.
Qed.

Lemma epoch_body_steps_match_draws e (a : agent) (w : world) :
  preserved steps_match_draws (epoch_body e) a w.
Proof.
  unfold epoch_body.
  apply (preserved_bind steps_match_draws steps_match_draws_trans); [draws_prim|].
  intros _ a1 w1 _.
  apply (preserved_bind steps_match_draws steps_match_draws_trans);
    [apply train_one_epoch_steps_match_draws|].
  intros _ a2 w2 _. unfold preserved, agent_after, world_after.
  rewrite save_checkpoint_default_spec. unfold steps_match_draws. simpl.
  repeat split; lia.
Qed.

(** X11.  However [run] ends, the iteration counter has not gone down,
    the random generator still has the seed it had, and the counter has
    advanced by no more than the number of noise vectors drawn: no step
    is counted without a fresh draw.  In a run that no Ctrl-C reaches,
    the two numbers are equal. *)
Theorem run_counts_one_draw_per_step (a : agent) (w : world) :
  current_iteration a <= current_iteration (agent_after run a w) ∧
  rng_seed (torch_rng (world_after run a w)) = rng_seed (torch_rng w) ∧
  current_iteration (agent_after run a w) - current_iteration a <=
    Z.of_nat (rng_draws (torch_rng (world_after run a w)) - rng_draws (torch_rng w)) ∧
  (sigint w = None ->
   current_iteration (agent_after run a w) - current_iteration a =
     Z.of_nat (rng_draws (torch_rng (world_after run a w)) - rng_draws (torch_rng w))).
Proof.
  assert (preserved steps_match_draws run a w) as (Hs & Hle & Hd).
  { unfold run.
    apply (preserved_try_except steps_match_draws steps_match_draws_trans);
      [|intros; draws_prim].
    unfold train.
    apply (preserved_bind steps_match_draws steps_match_draws_trans);
      [apply steps_match_draws_refl|].
    intros self a1 w1 _.
    apply (preserved_for_each steps_match_draws
             steps_match_draws_refl steps_match_draws_trans).
    intros. apply epoch_body_steps_match_draws. }
  split; [lia|]. split; [done|]. split; [lia|]. by intros _.
Qed.

(** Several epochs in a row, none of them interrupted. *)
Lemma epochs_complete (q : nat) : forall s (a : agent) (w : world),
  is_Some (model a) -> loader (dataloader_of a) ≠ [] ->
  no_sigint_within (S q * length (loader (dataloader_of a))) w ->
  exists a' w',
    for_each (range s (s + Z.of_nat (S q))) epoch_body a w = (Ok tt, a', w') ∧
    current_epoch a' = s + Z.of_nat q ∧
    current_iteration a' =
      current_iteration a + Z.of_nat (S q * length (loader (dataloader_of a))) ∧
    config_of a' = config_of a ∧
    sigint w' = sigint_after (S q * length (loader (dataloader_of a))) w ∧
    disk w' !! ckpt_path a "checkpoint.pth.tar" = Some (Pickled (state_of a')) ∧
    length (fs_log w') = (length (fs_log w) + 2 * S q)%nat.
Proof.
  induction q as [|q IH]; intros s a w Hm Hne Hs.
  - destruct (epoch_body_completes s a w Hm Hne)
      as (a1 & w1 & Hb & He & Hi & Hcfg & Hsig & Hd & Hl).
    { unfold no_sigint_within in *. destruct (sigint w); [lia|done]. }
    exists a1, w1. rewrite range_cons by lia. rewrite (range_nil (s + 1)) by lia.
    simpl. rewrite bind_eq, Hb. split; [done|]. split; [lia|]. split; [lia|].
    split; [done|]. split.
    { rewrite Hsig. unfold sigint_after. destruct (sigint w); [f_equal; lia|done]. }
    split.
    { rewrite Hd. unfold ckpt_path. rewrite <- Hcfg. apply save_ops_disk_path. }
    rewrite Hl, length_app. simpl. lia.
  - destruct (epoch_body_completes s a w Hm Hne)
      as (a1 & w1 & Hb & He & Hi & Hcfg & Hsig & Hd & Hl).
    { unfold no_sigint_within in *. destruct (sigint w); [lia|done]. }
    pose proof (epoch_body_run_frame s a w) as Hf.
    unfold preserved, agent_after, world_after in Hf. rewrite Hb in Hf.
    destruct Hf as (_ & Hld & _ & Hm1). simpl in Hld, Hm1.
    destruct (IH (s + 1) a1 w1 (Hm1 Hm)) as (a' & w' & Hr & He' & Hi' & Hcfg' & Hsig' & Hd' & Hl').
    { by rewrite Hld. }
    { rewrite Hld. unfold no_sigint_within, sigint_after in *. rewrite Hsig.
      destruct (sigint w); [lia|done]. }
    exists a', w'. rewrite range_cons by lia. simpl. rewrite bind_eq, Hb.
    replace (s + Z.of_nat (S (S q))) with (s + 1 + Z.of_nat (S q)) by lia.
    rewrite Hr. rewrite Hld in *. split; [done|]. split; [lia|]. split; [lia|].
    split; [congruence|]. split.
    { rewrite Hsig'. unfold sigint_after. rewrite Hsig. unfold sigint_after.
      destruct (sigint w); [f_equal; lia|done]. }
    split.
    { rewrite <- Hd'. unfold ckpt_path. by rewrite Hcfg. }
    rewrite Hl', Hl, length_app. simpl. lia.
Qed.

(** X12.  A run of [q + 1] epochs that no Ctrl-C cuts short, on an
    object with [model] bound and a loader of [n >= 1] batches: it
    returns, the epoch counter ends at [max_epoch - 1], the iteration
    counter has advanced by [(q + 1) * n], the checkpoint file holds the
    final state with epoch field [max_epoch], and the directory has seen
    two file operations per epoch, one save for each. *)
Theorem run_completes (a : agent) (w : world) (q : nat) :
  is_Some (model a) -> loader (dataloader_of a) ≠ [] ->
  max_epoch (config_of a) = current_epoch a + Z.of_nat (S q) ->
  no_sigint_within (S q * length (loader (dataloader_of a))) w ->
  exists a' w',
    run a w = (Ok tt, a', w') ∧
    current_epoch a' = max_epoch (config_of a) - 1 ∧
    current_iteration a' =
      current_iteration a + Z.of_nat (S q * length (loader (dataloader_of a))) ∧
    disk w' !! ckpt_path a "checkpoint.pth.tar" = Some (Pickled (state_of a')) ∧
    epoch (state_of a') = max_epoch (config_of a) ∧
    length (fs_log w') = (length (fs_log w) + 2 * S q)%nat.
Proof.
  intros Hm Hne Hmax Hs.
  destruct (epochs_complete q (current_epoch a) a w Hm Hne Hs)
    as (a' & w' & Hr & He & Hi & _ & _ & Hd & Hl).
  exists a', w'. unfold run, try_except. rewrite train_unfold, Hmax, Hr.
  split; [done|]. split; [lia|]. split; [done|]. split; [done|].
  split; [simpl; lia|done].
Qed.

(** ** Telemetry and gradient buffers *)

Lemma check_signals_summary (a : agent) (w : world) :
  exists r w0, check_signals a w = (r, a, w0) ∧ summary w0 = summary w.
Proof.
  unfold_step. simpl. destruct (sigint w) as [[|k]|]; simpl; by eexists _, _.
Qed.

(** Steps whose index stays strictly between 0 and 100 write nothing. *)
Lemma for_enumerate_no_telemetry (bs : list nat) : forall i l (a : agent) (w : world),
  0 < i -> i + Z.of_nat (length bs) <= 100 ->
  summary (world_after (for_enumerate train_step i (map Batch bs) l) a w) = summary w.
Proof.
  induction bs as [|b bs IH]; intros i l a w Hi Hle; [done|].
  unfold world_after. simpl. rewrite bind_eq.
  destruct (check_signals_summary a w) as (r & w0 & -> & Hs0).
  destruct r as [[]|e]; [|done].
  rewrite bind_eq.
  pose proof (train_step_summary i b l a w0) as Hs1. unfold world_after in Hs1.
  destruct (train_step_total i (Batch b) l a w0) as (l1 & a1 & w1 & Ht).
  rewrite Ht in *. simpl in Hs1.
  assert ((i mod 100 =? 0) = false) as Hmod.
  { simpl in Hle. rewrite Z.mod_small by lia. lia. }
  rewrite Hmod, app_nil_r in Hs1.
  specialize (IH (i + 1) l1 a1 w1). unfold world_after in IH.
  rewrite IH; [congruence|lia|simpl in Hle; lia].
Qed.

Lemma epoch_loop_first_block (a : agent) (w : world) (b : nat) (bs : list nat) :
  is_Some (model a) -> loader (dataloader_of a) = b :: bs ->
  (length bs < 100)%nat -> no_sigint_within 1 w ->
  summary (world_after epoch_loop a w) = summary w ++ step_telemetry 0 (Batch b) a w.
Proof.
  intros [m Hm] Hl Hlen Hs. unfold world_after.
  rewrite (epoch_loop_unfold _ _ _ Hm), Hl. simpl. rewrite bind_eq.
  match goal with
  | |- context [check_signals ?a0 ?w0] =>
      assert (exists w1, check_signals a0 w0 = (Ok tt, a0, w1) ∧
                summary w1 = summary w ∧ torch_rng w1 = torch_rng w)
        as (w1 & -> & Hs1 & Hr1)
  end.
  { unfold no_sigint_within in Hs. unfold_step. simpl.
    destruct (sigint w) as [[|k]|]; simpl; [lia| |]; by eexists. }
  rewrite bind_eq.
  match goal with
  | |- context [train_step 0 (Batch b) ?l0 ?a0 w1] =>
      pose proof (train_step_summary 0 b l0 a0 w1) as Hs2;
      destruct (train_step_total 0 (Batch b) l0 a0 w1) as (l2 & a2 & w2 & Ht)
  end.
  unfold world_after in Hs2. rewrite Ht in *. simpl in Hs2.
  pose proof (for_enumerate_no_telemetry bs (0 + 1) l2 a2 w2) as Hrest.
  unfold world_after in Hrest. rewrite Hrest by lia. rewrite Hs2, Hs1.
  unfold step_telemetry, step_G, step_loss_G, step_D, step_loss_D_fake,
    step_loss_D_real, step_fake, step_noise. simpl. by rewrite Hr1.
Qed.

(** X13.  In an epoch of at most 100 batches whose first step is not
    pre-empted by a Ctrl-C, the summary writer receives exactly one
    telemetry block, the one of the first batch, however the epoch goes
    on: no later step of the epoch writes anything. *)
Theorem short_epoch_one_telemetry_block (a : agent) (w : world)
    (b : nat) (bs : list nat) :
  is_Some (model a) -> loader (dataloader_of a) = b :: bs ->
  (length bs < 100)%nat -> no_sigint_within 1 w ->
  summary (world_after train_one_epoch a w) =
    summary w ++ step_telemetry 0 (Batch b) a w.
Proof.
  intros Hm Hl Hlen Hs.
  pose proof (epoch_loop_first_block a w b bs Hm Hl Hlen Hs) as He.
  unfold world_after, train_one_epoch, read_local in *. rewrite bind_eq.
  destruct (epoch_loop a w) as [[[l|e] a1] w1]; simpl in *; [|done].
  unfold_py. simpl.
  by destruct (D_mean_real_out l), (D_mean_fake_out l), (D_G_mean_out l).
Qed.

(** X14.  After a step the discriminator's gradient buffer holds three
    losses: the real and the fake loss its optimiser has just used, and
    the generator's loss, whose back-propagation runs through the
    discriminator as well.  The generator's buffer holds the generator's
    loss alone, whatever the two buffers held before the step. *)
Theorem train_step_gradient_buffers (curr_it : Z) (b : nat) (l : locals)
    (a : agent) (w : world) :
  grad (netD (agent_after (train_step curr_it (Batch b) l) a w)) =
    [step_loss_D_real (Batch b) a; step_loss_D_fake a w; step_loss_G (Batch b) a w] ∧
  grad (netG (agent_after (train_step curr_it (Batch b) l) a w)) =
    [step_loss_G (Batch b) a w] ∧
  reaches NetD (step_loss_G (Batch b) a w) = true ∧
  reaches NetG (step_loss_D_real (Batch b) a) = false.
Proof.
  unfold agent_after, step_loss_G, step_D, step_loss_D_fake,
    step_loss_D_real, step_fake, step_noise.
  unfold_step. unfold accumulate. simpl.
  destruct (cuda a); simpl; destruct_adam;
    destruct (curr_it mod 100 =? 0); simpl; repeat split; done.
Qed.

(** X15.  Every object the constructor returns carries a seed that the
    constructor drew at random, and the generator that training draws
    from has been reset to that seed; the evaluation noise was drawn
    before the reset, from the generator as the process found it, so the
    seed does not determine it. *)
Theorem init_seeds_after_fixed_noise (cfg : config) (w : world)
    (a : agent) (w' : world) :
  __init__ cfg w = (Ok a, w') ->
  manual_seed a = Some (randint_1_10000 w) ∧
  torch_rng w' = rng_manual_seed (randint_1_10000 w) ∧
  fixed_noise a = Randn (torch_rng w) [batch_size_cfg cfg; g_input_size cfg; 1; 1].
Proof.
  unfold __init__. destruct (seed cfg) as [s|]; [done|]. simpl.
  destruct (cuda_is_available w && cuda_cfg cfg); [done|].
  match goal with
  | |- context [load_checkpoint ?f ?a0 ?w0] =>
      destruct (load_checkpoint_cases f a0 w0)
        as [(c & _ & ->)|[(_ & ->)|(_ & ->)]]
  end; [| |done]; intros [= <- <-]; simpl;
    by destruct (cuda_is_available w && negb (cuda_cfg cfg)).
Qed.

(** ** Telemetry over an epoch *)

Lemma check_signals_none (a : agent) (w : world) :
  sigint w = None -> check_signals a w = (Ok tt, a, w).
Proof. intros Hs. unfold_step. simpl. by rewrite Hs. Qed.

Lemma check_signals_zero (a : agent) (w : world) :
  sigint w = Some 0%nat ->
  check_signals a w = (Raise KeyboardInterrupt, a, set_sigint None w).
Proof. intros Hs. unfold_step. simpl. by rewrite Hs. Qed.

Lemma check_signals_succ (a : agent) (w : world) (k : nat) :
  sigint w = Some (S k) -> check_signals a w = (Ok tt, a, set_sigint (Some k) w).
Proof. intros Hs. unfold_step. simpl. by rewrite Hs. Qed.

Lemma step_telemetry_keys (i : Z) (x : tensor P) (a : agent) (w : world) :
  map record_key (step_telemetry i x a w) = block_keys i (current_iteration a + 1).
Proof. reflexivity. Qed.

(** One step of the loop, as far as the keys and the signal go. *)
Lemma train_step_keys (i : Z) (b : nat) (l : locals) (a : agent) (w : world) :
  exists l1 a1 w1,
    train_step i (Batch b) l a w = (Ok l1, a1, w1) ∧
    current_iteration a1 = current_iteration a + 1 ∧ sigint w1 = sigint w ∧
    map record_key (summary w1) =
      map record_key (summary w)
      ++ (if i mod 100 =? 0 then block_keys i (current_iteration a + 1) else []).
Proof.
  destruct (train_step_total i (Batch b) l a w) as (l1 & a1 & w1 & Ht).
  destruct (train_step_counts _ _ _ _ _ _ _ _ Ht) as (Hi & Hsig & _).
  pose proof (train_step_summary i b l a w) as Hs. unfold world_after in Hs.
  rewrite Ht in Hs. simpl in Hs.
  exists l1, a1, w1. split; [done|]. split; [done|]. split; [done|].
  rewrite Hs, map_app. f_equal. by destruct (i mod 100 =? 0).
Qed.

(** The keys the loop writes: a block for each step taken whose index is
    a multiple of 100. *)
Lemma for_enumerate_keys (bs : list nat) : forall i l (a : agent) (w : world),
  map record_key (summary (world_after (for_enumerate train_step i (map Batch bs) l) a w))
  = map record_key (summary w)
    ++ telemetry_keys i (current_iteration a) (steps_taken (length bs) w).
Proof.
  induction bs as [|b bs IH]; intros i l a w.
  - unfold world_after, steps_taken. simpl.
    destruct (sigint w); rewrite ?Nat.min_0_r; simpl; by rewrite app_nil_r.
  - unfold world_after. simpl. rewrite bind_eq.
    destruct (sigint w) as [[|k]|] eqn:Hs.
    + rewrite (check_signals_zero _ _ Hs). unfold steps_taken. rewrite Hs. simpl.
      by rewrite app_nil_r.
    + rewrite (check_signals_succ _ _ _ Hs). rewrite bind_eq.
      destruct (train_step_keys i b l a (set_sigint (Some k) w))
        as (l1 & a1 & w1 & -> & Hi & Hsig & Hk).
      specialize (IH (i + 1) l1 a1 w1). unfold world_after in IH. rewrite IH, Hk.
      unfold steps_taken. rewrite Hs, Hsig. simpl. rewrite Hi.
      by rewrite <- app_assoc.
    + rewrite (check_signals_none _ _ Hs). rewrite bind_eq.
      destruct (train_step_keys i b l a w) as (l1 & a1 & w1 & -> & Hi & Hsig & Hk).
      specialize (IH (i + 1) l1 a1 w1). unfold world_after in IH. rewrite IH, Hk.
      unfold steps_taken. rewrite Hs, Hsig, Hs. simpl. rewrite Hi.
      by rewrite <- app_assoc.
Qed.

Lemma train_one_epoch_keys (a : agent) (w : world) :
  is_Some (model a) ->
  map record_key (summary (world_after train_one_epoch a w)) =
    map record_key (summary w)
    ++ telemetry_keys 0 (current_iteration a)
         (steps_taken (length (loader (dataloader_of a))) w).
Proof.
  intros [m Hm].
  pose proof (for_enumerate_keys (loader (dataloader_of a)) 0 locals_init
                (set_model (Some (train_mode m)) a)
                (set_stdout (stdout w ++ [TqdmOpen (current_epoch a)
                                            (num_iterations (dataloader_of a))]) w))
    as Hk.
  unfold world_after in Hk. rewrite <- (epoch_loop_unfold _ _ _ Hm) in Hk.
  simpl in Hk.
  unfold world_after, train_one_epoch, read_local. rewrite bind_eq.
  destruct (epoch_loop a w) as [[[l|e] a1] w1]; simpl in *; [|done].
  unfold_py. simpl.
  by destruct (D_mean_real_out l), (D_mean_fake_out l), (D_G_mean_out l).
Qed.

(** Which real-image keys [telemetry_keys] holds. *)
Lemma telemetry_keys_real (m : nat) : forall i it j n,
  (RealImage j, n) ∈ telemetry_keys i it m <->
  i <= j < i + Z.of_nat m ∧ j mod 100 = 0 ∧ n = it + (j - i) + 1.
Proof.
  induction m as [|m IH]; intros i it j n; simpl.
  - split; [intros H; by apply elem_of_nil in H|lia].
  - rewrite elem_of_app, IH. destruct (i mod 100 =? 0) eqn:E.
    + unfold block_keys. rewrite !elem_of_cons, elem_of_nil. split.
      * intros [[H|[H|[H|[H|[]]]]]|H]; try discriminate; [|lia].
        injection H as -> ->. lia.
      * intros (Hj & Hmod & ->). destruct (decide (j = i)) as [->|Hne].
        -- left. right. right. left. f_equal. lia.
        -- right. lia.
    + rewrite elem_of_nil. split.
      * intros [[]|H]. lia.
      * intros (Hj & Hmod & ->). right.
        assert (j ≠ i) by (intros ->; lia). lia.
Qed.

(** C8, as amended.  Telemetry is written on exactly those steps whose
    index within the epoch, counted from 0 at the first batch of every
    epoch, is a multiple of the constant 100, whatever the configuration.
    On such a step the latest generator and discriminator loss, the real
    batch and a sample generated from the fixed noise are written, all
    four stamped with the iteration counter after the step; every other
    step writes nothing.  Over an epoch the records written are the
    blocks of the steps taken with index 0, 100, 200, ..., the step of
    index [j] stamped with the iteration count at the start of the epoch
    plus [j + 1]. *)
Theorem telemetry_on_every_100th_batch (curr_it : Z) (b : nat) (l : locals)
    (a : agent) (w : world) :
  (curr_it mod 100 = 0 ->
   summary (world_after (train_step curr_it (Batch b) l) a w) =
     summary w ++ step_telemetry curr_it (Batch b) a w) ∧
  (curr_it mod 100 ≠ 0 ->
   summary (world_after (train_step curr_it (Batch b) l) a w) = summary w) ∧
  map record_key (step_telemetry curr_it (Batch b) a w) =
    block_keys curr_it (current_iteration a + 1) ∧
  (is_Some (model a) ->
   map record_key (summary (world_after train_one_epoch a w)) =
     map record_key (summary w)
     ++ telemetry_keys 0 (current_iteration a)
          (steps_taken (length (loader (dataloader_of a))) w)) ∧
  (forall m it j n,
     (RealImage j, n) ∈ telemetry_keys 0 it m <->
     0 <= j < Z.of_nat m ∧ j mod 100 = 0 ∧ n = it + j + 1).
Proof.
  rewrite train_step_summary. split; [|split; [|split; [|split]]].
  - intros Hc. by rewrite Hc.
  - intros Hc. destruct (curr_it mod 100 =? 0) eqn:E; [lia|by rewrite app_nil_r].
  - apply step_telemetry_keys.
  - apply train_one_epoch_keys.
  - intros m it j n. rewrite telemetry_keys_real.
    split; intros (? & ? & ->); repeat split; lia.
Qed.

(** ** The evaluation noise in the telemetry *)

(** The constructor returns whenever nothing on its way raises. *)
Lemma init_returns (cfg : config) (w : world) :
  seed cfg = None -> cuda_is_available w && cuda_cfg cfg = false ->
  disk w !! String.append (checkpoint_dir cfg) (checkpoint_file cfg) ≠ Some Truncated ->
  exists a w', __init__ cfg w = (Ok a, w').
Proof.
  intros Hseed Hcuda Hd. unfold __init__. rewrite Hseed. simpl. rewrite Hcuda.
  match goal with
  | |- context [load_checkpoint ?f ?a0 ?w0] =>
      destruct (load_checkpoint_cases f a0 w0)
        as [(c & _ & ->)|[(_ & ->)|(Ht & _)]]
  end; [by eexists _, _|by eexists _, _|].
  exfalso. apply Hd. unfold ckpt_path in Ht. simpl in Ht.
  by destruct (cuda_is_available w && negb (cuda_cfg cfg)).
Qed.

(** One step of the loop, as far as the records and the noise go. *)
Lemma train_step_records (i : Z) (b : nat) (l : locals) (a : agent) (w : world) :
  exists l1 a1 w1,
    train_step i (Batch b) l a w = (Ok l1, a1, w1) ∧
    current_iteration a1 = current_iteration a + 1 ∧ sigint w1 = sigint w ∧
    fixed_noise a1 = fixed_noise a ∧
    summary w1 =
      summary w ++ (if i mod 100 =? 0 then step_telemetry i (Batch b) a w else []).
Proof.
  destruct (train_step_total i (Batch b) l a w) as (l1 & a1 & w1 & Ht).
  destruct (train_step_counts _ _ _ _ _ _ _ _ Ht) as (Hi & Hsig & _).
  pose proof (train_step_summary i b l a w) as Hs.
  pose proof (train_step_noise_kept i (Batch b) l a w) as [Hz _].
  unfold world_after, agent_after in *. rewrite Ht in *. simpl in *.
  by exists l1, a1, w1.
Qed.

Lemma step_telemetry_generated (i : Z) (x : tensor P) (a : agent) (w : world) :
  last (step_telemetry i x a w) =
    Some (Image (GeneratedImage i)
            (Detach (Forward NetG (step_G x a w).1 (fixed_noise a)))
            (current_iteration a + 1)).
Proof. reflexivity. Qed.

(** Every step taken whose index is a multiple of 100 leaves a
    generated-sample image made from the evaluation noise. *)
Lemma for_enumerate_generated (bs : list nat) : forall i l (a : agent) (w : world) j,
  i <= j < i + Z.of_nat (steps_taken (length bs) w) -> j mod 100 = 0 ->
  exists p,
    Image (GeneratedImage j) (Detach (Forward NetG p (fixed_noise a)))
      (current_iteration a + (j - i) + 1)
    ∈ summary (world_after (for_enumerate train_step i (map Batch bs) l) a w).
Proof.
  induction bs as [|b bs IH]; intros i l a w j Hj Hmod.
  - unfold steps_taken in Hj. simpl in Hj. destruct (sigint w); lia.
  - assert (exists w0, check_signals a w = (Ok tt, a, w0) ∧ summary w0 = summary w ∧
              steps_taken (S (length bs)) w = S (steps_taken (length bs) w0))
      as (w0 & Hc & Hs0 & Hst).
    { unfold steps_taken in *. simpl in Hj. destruct (sigint w) as [[|k]|] eqn:Hs.
      - simpl in Hj. lia.
      - exists (set_sigint (Some k) w). by rewrite (check_signals_succ _ _ _ Hs).
      - exists w. by rewrite (check_signals_none _ _ Hs), Hs. }
    simpl in Hj. rewrite Hst in Hj.
    unfold world_after. simpl. rewrite bind_eq, Hc, bind_eq.
    destruct (train_step_records i b l a w0) as (l1 & a1 & w1 & -> & Hi & Hsig & Hz & Hs1).
    assert (steps_taken (length bs) w1 = steps_taken (length bs) w0) as Hst1.
    { unfold steps_taken. by rewrite Hsig. }
    destruct (decide (j = i)) as [->|Hne].
    + exists (step_G (Batch b) a w0).1.
      destruct (for_enumerate_noise_kept (map Batch bs) (i + 1) l1 a1 w1)
        as (_ & new & Hnew & _).
      unfold world_after in Hnew. rewrite Hnew, Hs1.
      apply Z.eqb_eq in Hmod. rewrite Hmod.
      replace (current_iteration a + (i - i) + 1) with (current_iteration a + 1) by lia.
      rewrite !elem_of_app. left. right. unfold step_telemetry.
      rewrite !elem_of_cons. auto.
    + destruct (IH (i + 1) l1 a1 w1 j) as (p & Hp); [rewrite Hst1; lia|done|].
      exists p. unfold world_after in Hp. rewrite Hz, Hi in Hp.
      by replace (current_iteration a + (j - i) + 1)
        with (current_iteration a + 1 + (j - (i + 1)) + 1) by lia.
Qed.

Lemma train_one_epoch_generated (a : agent) (w : world) (j : Z) :
  is_Some (model a) ->
  0 <= j < Z.of_nat (steps_taken (length (loader (dataloader_of a))) w) ->
  j mod 100 = 0 ->
  exists p,
    Image (GeneratedImage j) (Detach (Forward NetG p (fixed_noise a)))
      (current_iteration a + j + 1)
    ∈ summary (world_after train_one_epoch a w).
Proof.
  intros [m Hm] Hj Hmod.
  destruct (for_enumerate_generated (loader (dataloader_of a)) 0 locals_init
              (set_model (Some (train_mode m)) a)
              (set_stdout (stdout w ++ [TqdmOpen (current_epoch a)
                                          (num_iterations (dataloader_of a))]) w) j)
    as (p & Hp); [exact Hj|done|].
  exists p.
  unfold world_after in Hp. rewrite <- (epoch_loop_unfold _ _ _ Hm) in Hp.
  simpl in Hp. replace (j - 0) with j in Hp by lia.
  unfold world_after, train_one_epoch, read_local. rewrite bind_eq.
  destruct (epoch_loop a w) as [[[l|e] a1] w1]; simpl in *; [|done].
  unfold_py. simpl.
  by destruct (D_mean_real_out l), (D_mean_fake_out l), (D_G_mean_out l).
Qed.

(** C6.  The evaluation noise is drawn once, in the constructor, as its
    first draw from the random generator: the constructor returns
    whenever no seed is configured, CUDA is not both available and
    enabled and the checkpoint file is not truncated, and the object it
    returns holds that draw.  No method assigns the vector again: [run], a
    training epoch, [finalize], the checkpoint load and the checkpoint
    save all leave it as it is, however they end, and every
    generated-sample image they hand to the summary writer is the
    generator applied to that vector.  Such images are written: a step
    whose index is a multiple of 100 ends its telemetry block with the
    generator, as the step has just updated it, applied to the evaluation
    noise, and an epoch leaves one such image for every step it takes
    with index 0, 100, 200, ... *)
Theorem fixed_noise_sampled_once (cfg : config) (w0 : world)
    (a : agent) (w : world) (file_name : string) (is_best : Z)
    (curr_it : Z) (b : nat) (l : locals) :
  (seed cfg = None -> cuda_is_available w0 && cuda_cfg cfg = false ->
   disk w0 !! String.append (checkpoint_dir cfg) (checkpoint_file cfg) ≠ Some Truncated ->
   exists a0 w0',
     __init__ cfg w0 = (Ok a0, w0') ∧
     fixed_noise a0 = Randn (torch_rng w0) [batch_size_cfg cfg; g_input_size cfg; 1; 1]) ∧
  (forall a0 w0',
     __init__ cfg w0 = (Ok a0, w0') ->
     fixed_noise a0 = Randn (torch_rng w0) [batch_size_cfg cfg; g_input_size cfg; 1; 1]) ∧
  preserved noise_kept run a w ∧
  preserved noise_kept train_one_epoch a w ∧
  preserved noise_kept finalize a w ∧
  preserved noise_kept (load_checkpoint file_name) a w ∧
  preserved noise_kept (save_checkpoint file_name is_best) a w ∧
  (curr_it mod 100 = 0 ->
   summary (world_after (train_step curr_it (Batch b) l) a w) =
     summary w ++ step_telemetry curr_it (Batch b) a w ∧
   last (step_telemetry curr_it (Batch b) a w) =
     Some (Image (GeneratedImage curr_it)
             (Detach (Forward NetG (step_G (Batch b) a w).1 (fixed_noise a)))
             (current_iteration a + 1))) ∧
  (is_Some (model a) ->
   forall j,
     0 <= j < Z.of_nat (steps_taken (length (loader (dataloader_of a))) w) ->
     j mod 100 = 0 ->
     exists p,
       Image (GeneratedImage j) (Detach (Forward NetG p (fixed_noise a)))
         (current_iteration a + j + 1)
       ∈ summary (world_after train_one_epoch a w)).
Proof.
  split; [|split].
  - intros Hseed Hcuda Hd.
    destruct (init_returns cfg w0 Hseed Hcuda Hd) as (a0 & w0' & Hi).
    exists a0, w0'. split; [done|]. by apply (init_fixed_noise cfg w0 a0 w0').
  - apply init_fixed_noise.
  - split; [apply run_noise_kept|].
    split; [apply train_one_epoch_noise_kept|].
    split; [apply finalize_noise_kept|].
    split; [apply load_checkpoint_noise_kept|].
    split; [apply save_checkpoint_noise_kept|].
    split.
    + intros Hc. split; [|reflexivity].
      rewrite train_step_summary. apply Z.eqb_eq in Hc. by rewrite Hc.
    + intros Hm j Hj Hmod. by apply train_one_epoch_generated.
Qed.

End Proofs.

(** * Worked runs *)

(** The constructor on the toy configuration, in an empty directory. *)
Example constructed_init (max : Z) :
  __init__ (Toy.cfg max) Toy.fresh_world = (Ok (Toy.constructed max), Toy.started_world).
Proof. reflexivity. Qed.

(** With a seed configured the toy constructor raises. *)
Example seeded_init_raises :
  (__init__ (Toy.seeded_cfg 7) Toy.fresh_world).1 = Raise (AttributeError "manual_seed").
Proof. reflexivity. Qed.

(** On the object as constructed, the first epoch stops at
    [self.model.train()]. *)
Example constructed_run_raises :
  (run (Toy.constructed 1) Toy.started_world).1.1 = Raise (AttributeError "model").
Proof. reflexivity. Qed.

(** With a loader that yields nothing, the epoch ends on the unbound
    local of its closing print. *)
Example empty_epoch_raises :
  (train_one_epoch
     (mkAgent (Toy.cfg 1) (netG (Toy.trainer 1)) (netD (Toy.trainer 1))
        {| loader := []; num_iterations := 0 |} 4 0 0 0 0 0
        (fixed_noise (Toy.trainer 1)) 1 0 false false (Some 42)
        (model (Toy.trainer 1)) (summary_writer (Toy.trainer 1)))
     Toy.started_world).1.1
  = Raise (UnboundLocalError "D_mean_real_out").
Proof. reflexivity. Qed.

(** C1, counterexample.  The constructor loads the checkpoint of epoch
    field 1; saving at once writes epoch field 2 over it. *)
Lemma load_then_save_not_idempotent :
  exists a w1,
    __init__ (Toy.cfg 1) (Toy.with_file (Pickled Toy.ckpt1) Toy.fresh_world) = (Ok a, w1) ∧
    current_epoch a = 1 ∧ current_iteration a = 2 ∧
    disk w1 !! "ckpt/checkpoint.pth.tar" = Some (Pickled Toy.ckpt1) ∧
    disk (world_after save_checkpoint_default a w1) !! "ckpt/checkpoint.pth.tar"
      = Some (Pickled {| epoch := 2; iteration := 2;
                         G_state_dict := 12; G_optimizer := 2;
                         D_state_dict := 24; D_optimizer := 2 |}) ∧
    disk (world_after save_checkpoint_default a w1) !! "ckpt/checkpoint.pth.tar"
      ≠ disk w1 !! "ckpt/checkpoint.pth.tar".
Proof.
  eexists _, _. split; [vm_compute; reflexivity|].
  split; [reflexivity|]. split; [reflexivity|]. split; [vm_compute; reflexivity|].
  split; [vm_compute; reflexivity|]. vm_compute. intros [=].
Qed.

(** C1, at the toy object: the checkpoint of epoch field 1 is loaded and written back with epoch field 2 and everything else as loaded. *)
Lemma load_then_save_bumps_epoch_witness :
  disk (Toy.with_file (Pickled Toy.ckpt1) Toy.fresh_world)
    !! ckpt_path (Toy.constructed 1) "checkpoint.pth.tar" = Some (Pickled Toy.ckpt1) ∧
  result_of (load_checkpoint "checkpoint.pth.tar") (Toy.constructed 1)
    (Toy.with_file (Pickled Toy.ckpt1) Toy.fresh_world) = Ok tt ∧
  disk (world_after (save_checkpoint "checkpoint.pth.tar" 0)
          (agent_after (load_checkpoint "checkpoint.pth.tar") (Toy.constructed 1)
             (Toy.with_file (Pickled Toy.ckpt1) Toy.fresh_world))
          (world_after (load_checkpoint "checkpoint.pth.tar") (Toy.constructed 1)
             (Toy.with_file (Pickled Toy.ckpt1) Toy.fresh_world)))
    !! ckpt_path (Toy.constructed 1) "checkpoint.pth.tar"
  = Some (Pickled {| epoch := 1 + 1; iteration := 2;
                     G_state_dict := 12; G_optimizer := 2;
                     D_state_dict := 24; D_optimizer := 2 |}).
Proof.
  split; [vm_compute; reflexivity|].
  apply (load_then_save_bumps_epoch "checkpoint.pth.tar" 0 (Toy.constructed 1)
           (Toy.with_file (Pickled Toy.ckpt1) Toy.fresh_world) Toy.ckpt1).
  vm_compute; reflexivity.
Defined.



(** C7, counterexample.  Over a directory that holds a complete
    checkpoint, the first file operation of a save leaves a file that a
    reader cannot unpickle; only the second one completes it. *)
Lemma save_checkpoint_reader_sees_truncated :
  exists ops1 ops2,
    fs_log (world_after save_checkpoint_default (Toy.constructed 1)
              (Toy.with_file (Pickled Toy.ckpt1) Toy.fresh_world))
      = fs_log (Toy.with_file (Pickled Toy.ckpt1) Toy.fresh_world) ++ ops1 ++ ops2 ∧
    reader_sees [] (disk (Toy.with_file (Pickled Toy.ckpt1) Toy.fresh_world))
      "ckpt/checkpoint.pth.tar" = Ok Toy.ckpt1 ∧
    reader_sees ops1 (disk (Toy.with_file (Pickled Toy.ckpt1) Toy.fresh_world))
      "ckpt/checkpoint.pth.tar" = Raise EOFError ∧
    reader_sees (ops1 ++ ops2) (disk (Toy.with_file (Pickled Toy.ckpt1) Toy.fresh_world))
      "ckpt/checkpoint.pth.tar" = Ok (state_of (Toy.constructed 1)).
Proof.
  exists [OpenWrite "ckpt/checkpoint.pth.tar"],
         [Dump "ckpt/checkpoint.pth.tar" (state_of (Toy.constructed 1))].
  repeat split; vm_compute; reflexivity.
Qed.

(** C2, counterexample.  Two epochs of two steps; the Ctrl-C arrives
    after the first step of epoch 1.  When [run] returns, the directory
    holds the checkpoint of epoch 0; [finalize] replaces it by one with
    epoch field 2 and three iterations, the state in the middle of
    epoch 1. *)
Lemma cancelled_run_finalize_overwrites :
  exists a2 w2 w3,
    run (Toy.trainer 2) Toy.cancelled_world = (Ok tt, a2, w2) ∧
    current_epoch a2 = 1 ∧ current_iteration a2 = 3 ∧
    disk w2 !! "ckpt/checkpoint.pth.tar" = Some (Pickled Toy.ckpt1) ∧
    finalize a2 w2 = (Ok tt, a2, w3) ∧
    disk w3 !! "ckpt/checkpoint.pth.tar" = Some (Pickled Toy.ckpt_cancelled) ∧
    disk w3 !! "ckpt/checkpoint.pth.tar" ≠ disk w2 !! "ckpt/checkpoint.pth.tar".
Proof.
  eexists _, _, _. split; [vm_compute; reflexivity|].
  split; [reflexivity|]. split; [reflexivity|]. split; [vm_compute; reflexivity|].
  split; [vm_compute; reflexivity|]. split; [vm_compute; reflexivity|].
  vm_compute. intros [=].
Qed.

(** C2, at the toy trainer: epoch 0 completes, the Ctrl-C arrives after one of the two steps of epoch 1. *)
Lemma cancelled_run_then_finalize_witness :
  is_Some (model (Toy.trainer 2)) ∧
  current_epoch (Toy.trainer 2) + Z.of_nat 1 < max_epoch (config_of (Toy.trainer 2)) ∧
  sigint (world_after (for_each (range 0 1) epoch_body) (Toy.trainer 2) Toy.cancelled_world)
    = Some 1%nat ∧
  (1 < length (loader (dataloader_of (Toy.trainer 2))))%nat ∧
  exists a2 w2 w3,
    run (Toy.trainer 2) Toy.cancelled_world = (Ok tt, a2, w2) ∧
    disk w2 = disk (world_after (for_each (range 0 1) epoch_body)
                      (Toy.trainer 2) Toy.cancelled_world) ∧
    fs_log w2 = fs_log (world_after (for_each (range 0 1) epoch_body)
                          (Toy.trainer 2) Toy.cancelled_world) ∧
    current_epoch a2 = current_epoch (Toy.trainer 2) + Z.of_nat 1 ∧
    current_iteration a2 =
      current_iteration (agent_after (for_each (range 0 1) epoch_body)
                           (Toy.trainer 2) Toy.cancelled_world) + Z.of_nat 1 ∧
    finalize a2 w2 = (Ok tt, a2, w3) ∧
    disk w3 !! ckpt_path (Toy.trainer 2) "checkpoint.pth.tar"
      = Some (Pickled (state_of a2)) ∧
    epoch (state_of a2) = current_epoch (Toy.trainer 2) + Z.of_nat 1 + 1 ∧
    iteration (state_of a2) =
      current_iteration (agent_after (for_each (range 0 1) epoch_body)
                           (Toy.trainer 2) Toy.cancelled_world) + Z.of_nat 1.
Proof.
  split; [by eexists|]. split; [reflexivity|]. split; [reflexivity|].
  split; [simpl; lia|].
  apply (cancelled_run_then_finalize (Toy.trainer 2) Toy.cancelled_world 1 1
           (agent_after (for_each (range 0 1) epoch_body) (Toy.trainer 2) Toy.cancelled_world)
           (world_after (for_each (range 0 1) epoch_body) (Toy.trainer 2) Toy.cancelled_world)).
  - by eexists.
  - reflexivity.
  - vm_compute; reflexivity.
  - reflexivity.
  - simpl; lia.
Defined.

(** C5, counterexample.  On the object as the constructor returns it,
    the run of one epoch stops at [self.model.train()]: no step is taken
    and no checkpoint is written.  Once [model] is bound the run goes
    through, and then the epoch counter ends at 0, not 1, and the one
    checkpoint has epoch field 1, not 2. *)
Lemma fresh_run_one_epoch_counterexample :
  (exists w',
     run (Toy.constructed 1) Toy.started_world
       = (Raise (AttributeError "model"), Toy.constructed 1, w') ∧
     disk w' = ∅ ∧ current_iteration (Toy.constructed 1) = 0) ∧
  (exists a' w',
     run (Toy.trainer 1) Toy.started_world = (Ok tt, a', w') ∧
     current_iteration a' = 2 ∧ current_epoch a' = 0 ∧ current_epoch a' ≠ 1 ∧
     disk w' = {[ "ckpt/checkpoint.pth.tar" := Pickled Toy.ckpt1 ]} ∧
     epoch Toy.ckpt1 = 1 ∧ epoch Toy.ckpt1 ≠ 2).
Proof.
  split.
  - eexists. split; [vm_compute; reflexivity|]. split; reflexivity.
  - eexists _, _. split; [vm_compute; reflexivity|].
    split; [reflexivity|]. split; [reflexivity|]. split; [by intros [=]|].
    split; [vm_compute; reflexivity|]. split; [reflexivity|by intros [=]].
Qed.

(** C5, at the toy trainer with one epoch of the batches 0 and 1. *)
Lemma one_epoch_two_batches_witness :
  is_Some (model (Toy.trainer 1)) ∧
  current_epoch (Toy.trainer 1) = 0 ∧ current_iteration (Toy.trainer 1) = 0 ∧
  max_epoch (config_of (Toy.trainer 1)) = 1 ∧
  loader (dataloader_of (Toy.trainer 1)) = [0; 1]%nat ∧
  sigint Toy.started_world = None ∧ disk Toy.started_world = ∅ ∧
  (exists l a' w',
     epoch_loop (Toy.trainer 1) Toy.started_world = (Ok l, a', w') ∧
     meter_count (epoch_lossD l) = 2%nat ∧ meter_count (epoch_lossG l) = 2%nat) ∧
  exists a' w',
    run (Toy.trainer 1) Toy.started_world = (Ok tt, a', w') ∧
    current_iteration a' = 2 ∧ current_epoch a' = 0 ∧
    disk w' = {[ ckpt_path (Toy.trainer 1) "checkpoint.pth.tar" := Pickled (state_of a') ]} ∧
    epoch (state_of a') = 1 ∧ iteration (state_of a') = 2.
Proof.
  split; [by eexists|]. do 6 (split; [reflexivity|]).
  apply (one_epoch_two_batches (Toy.trainer 1) Toy.started_world 0 1);
    first [reflexivity | by eexists].
Defined.

(** C8, counterexample.  Two epochs of two steps: telemetry is written
    on the first step of each epoch, stamped with the iteration counts 1
    and 3, neither of them a multiple of 100, and two steps apart. *)
Lemma telemetry_at_iterations_1_and_3 :
  map global_step_of (summary (world_after run (Toy.trainer 2) Toy.started_world))
    = [1; 1; 1; 1; 3; 3; 3; 3] ∧
  current_iteration (agent_after run (Toy.trainer 2) Toy.started_world) = 4 ∧
  1 mod 100 ≠ 0 ∧ 3 mod 100 ≠ 0.
Proof.
  split; [vm_compute; reflexivity|]. split; [vm_compute; reflexivity|].
  split; by intros [=].
Qed.

(** C10, at the toy trainer: a save at epoch 0, then a load and a run of the two-epoch configuration. *)
Lemma resume_begins_at_stored_epoch_witness :
  checkpoint_dir (config_of (Toy.trainer 2)) = checkpoint_dir (config_of (Toy.trainer 2)) ∧
  disk (world_after (save_checkpoint "checkpoint.pth.tar" 0) (Toy.trainer 2) Toy.started_world)
    !! ckpt_path (Toy.trainer 2) "checkpoint.pth.tar"
  = Some (Pickled (state_of (Toy.trainer 2))) ∧
  epoch (state_of (Toy.trainer 2)) = current_epoch (Toy.trainer 2) + 1 ∧
  current_epoch
    (agent_after (load_checkpoint "checkpoint.pth.tar") (Toy.trainer 2)
       (world_after (save_checkpoint "checkpoint.pth.tar" 0) (Toy.trainer 2) Toy.started_world))
    = current_epoch (Toy.trainer 2) + 1 ∧
  exists new,
    stdout (world_after run
              (agent_after (load_checkpoint "checkpoint.pth.tar") (Toy.trainer 2)
                 (world_after (save_checkpoint "checkpoint.pth.tar" 0)
                    (Toy.trainer 2) Toy.started_world))
              (world_after (load_checkpoint "checkpoint.pth.tar") (Toy.trainer 2)
                 (world_after (save_checkpoint "checkpoint.pth.tar" 0)
                    (Toy.trainer 2) Toy.started_world)))
      = stdout (world_after (load_checkpoint "checkpoint.pth.tar") (Toy.trainer 2)
                  (world_after (save_checkpoint "checkpoint.pth.tar" 0)
                     (Toy.trainer 2) Toy.started_world)) ++ new ∧
    entered new `prefix_of`
      range (current_epoch (Toy.trainer 2) + 1) (max_epoch (config_of (Toy.trainer 2))) ∧
    (current_epoch (Toy.trainer 2) + 1 < max_epoch (config_of (Toy.trainer 2)) ->
     exists n rest, new = TqdmOpen (current_epoch (Toy.trainer 2) + 1) n :: rest) ∧
    current_epoch (Toy.trainer 2) ∉ entered new.
Proof.
  split; [reflexivity|].
  apply (resume_begins_at_stored_epoch "checkpoint.pth.tar" 0
           (Toy.trainer 2) Toy.started_world (Toy.trainer 2)
           (world_after (save_checkpoint "checkpoint.pth.tar" 0)
              (Toy.trainer 2) Toy.started_world));
    reflexivity.
Defined.

(** ** Worked runs for the further properties *)

(** X2, on the toy directory that holds the checkpoint of the first epoch. *)
Lemma init_resumes_from_checkpoint_witness :
  seed (Toy.cfg 1) = None ∧
  cuda_is_available Toy.resumed_world && cuda_cfg (Toy.cfg 1) = false ∧
  disk Toy.resumed_world
    !! String.append (checkpoint_dir (Toy.cfg 1)) (checkpoint_file (Toy.cfg 1))
    = Some (Pickled Toy.ckpt1) ∧
  exists a w',
    __init__ (Toy.cfg 1) Toy.resumed_world = (Ok a, w') ∧
    current_epoch a = epoch Toy.ckpt1 ∧ current_iteration a = iteration Toy.ckpt1 ∧
    weights (netG a) = G_state_dict Toy.ckpt1 ∧ optimG a = G_optimizer Toy.ckpt1 ∧
    weights (netD a) = D_state_dict Toy.ckpt1 ∧ optimD a = D_optimizer Toy.ckpt1 ∧
    grad (netG a) = [] ∧ grad (netD a) = [] ∧
    fixed_noise a = Randn (torch_rng Toy.resumed_world)
                      [batch_size_cfg (Toy.cfg 1); g_input_size (Toy.cfg 1); 1; 1] ∧
    disk w' = disk Toy.resumed_world ∧ fs_log w' = fs_log Toy.resumed_world.
Proof.
  split; [reflexivity|]. split; [reflexivity|]. split; [vm_compute; reflexivity|].
  apply (init_resumes_from_checkpoint (Toy.cfg 1) Toy.resumed_world Toy.ckpt1);
    [reflexivity|reflexivity|vm_compute; reflexivity].
Defined.

(** X3, on the toy object as constructed in an empty directory. *)
Lemma constructed_agent_cannot_train_witness :
  __init__ (Toy.cfg 1) Toy.fresh_world = (Ok (Toy.constructed 1), Toy.started_world) ∧
  current_epoch (Toy.constructed 1) < max_epoch (Toy.cfg 1) ∧
  run (Toy.constructed 1) Toy.started_world =
    (Raise (AttributeError "model"), Toy.constructed 1,
     set_stdout (stdout Toy.started_world ++
                   [TqdmOpen (current_epoch (Toy.constructed 1))
                      (num_iterations (CelebADataLoader (Toy.cfg 1)))])
       Toy.started_world).
Proof.
  split; [reflexivity|]. split; [reflexivity|].
  apply (constructed_agent_cannot_train (Toy.cfg 1) Toy.fresh_world
           (Toy.constructed 1) Toy.started_world); reflexivity.
Defined.

(** X4: the toy trainer saves, the object as constructed loads. *)
Lemma save_then_load_restores_witness :
  checkpoint_dir (config_of (Toy.constructed 2)) = checkpoint_dir (config_of (Toy.trainer 2)) ∧
  result_of (load_checkpoint "checkpoint.pth.tar") (Toy.constructed 2)
    (world_after (save_checkpoint "checkpoint.pth.tar" 0) (Toy.trainer 2) Toy.started_world)
    = Ok tt ∧
  agent_after (load_checkpoint "checkpoint.pth.tar") (Toy.constructed 2)
    (world_after (save_checkpoint "checkpoint.pth.tar" 0) (Toy.trainer 2) Toy.started_world)
    = loaded (state_of (Toy.trainer 2)) (Toy.constructed 2) ∧
  current_epoch (loaded (state_of (Toy.trainer 2)) (Toy.constructed 2))
    = current_epoch (Toy.trainer 2) + 1 ∧
  current_iteration (loaded (state_of (Toy.trainer 2)) (Toy.constructed 2))
    = current_iteration (Toy.trainer 2) ∧
  weights (netG (loaded (state_of (Toy.trainer 2)) (Toy.constructed 2)))
    = weights (netG (Toy.trainer 2)) ∧
  optimG (loaded (state_of (Toy.trainer 2)) (Toy.constructed 2)) = optimG (Toy.trainer 2) ∧
  weights (netD (loaded (state_of (Toy.trainer 2)) (Toy.constructed 2)))
    = weights (netD (Toy.trainer 2)) ∧
  optimD (loaded (state_of (Toy.trainer 2)) (Toy.constructed 2)) = optimD (Toy.trainer 2) ∧
  grad (netG (loaded (state_of (Toy.trainer 2)) (Toy.constructed 2)))
    = grad (netG (Toy.constructed 2)) ∧
  grad (netD (loaded (state_of (Toy.trainer 2)) (Toy.constructed 2)))
    = grad (netD (Toy.constructed 2)) ∧
  fixed_noise (loaded (state_of (Toy.trainer 2)) (Toy.constructed 2))
    = fixed_noise (Toy.constructed 2) ∧
  model (loaded (state_of (Toy.trainer 2)) (Toy.constructed 2)) = model (Toy.constructed 2).
Proof.
  split; [reflexivity|].
  apply (save_then_load_restores "checkpoint.pth.tar" 0 (Toy.trainer 2)
           Toy.started_world (Toy.constructed 2)); reflexivity.
Defined.

(** X8, on the toy trainer with an empty loader. *)
Lemma empty_loader_run_raises_witness :
  is_Some (model (Toy.empty_trainer 1)) ∧
  sigint Toy.started_world = None ∧
  loader (dataloader_of (Toy.empty_trainer 1)) = [] ∧
  current_epoch (Toy.empty_trainer 1) < max_epoch (config_of (Toy.empty_trainer 1)) ∧
  exists a' w',
    run (Toy.empty_trainer 1) Toy.started_world
      = (Raise (UnboundLocalError "D_mean_real_out"), a', w') ∧
    current_iteration a' = current_iteration (Toy.empty_trainer 1) ∧
    disk w' = disk Toy.started_world ∧ fs_log w' = fs_log Toy.started_world ∧
    summary w' = summary Toy.started_world ∧
    stdout w' = stdout Toy.started_world ++
                  [TqdmOpen (current_epoch (Toy.empty_trainer 1))
                     (num_iterations (dataloader_of (Toy.empty_trainer 1)));
                   TqdmClose].
Proof.
  split; [by eexists|]. split; [reflexivity|]. split; [reflexivity|].
  split; [reflexivity|].
  apply (empty_loader_run_raises (Toy.empty_trainer 1) Toy.started_world);
    first [reflexivity | by eexists].
Defined.

(** X9, on the toy directory after a finished training of one epoch. *)
Lemma relaunch_after_completion_witness :
  max_epoch (Toy.cfg 1) <= epoch Toy.ckpt1 ∧
  exists a w1 w2,
    __init__ (Toy.cfg 1) Toy.resumed_world = (Ok a, w1) ∧
    run a w1 = (Ok tt, a, w1) ∧
    finalize a w1 = (Ok tt, a, w2) ∧
    disk w2 =
      <[String.append (checkpoint_dir (Toy.cfg 1)) "checkpoint.pth.tar" :=
          Pickled {| epoch := epoch Toy.ckpt1 + 1; iteration := iteration Toy.ckpt1;
                     G_state_dict := G_state_dict Toy.ckpt1;
                     G_optimizer := G_optimizer Toy.ckpt1;
                     D_state_dict := D_state_dict Toy.ckpt1;
                     D_optimizer := D_optimizer Toy.ckpt1 |}]>
        (disk Toy.resumed_world) ∧
    summary w2 = summary Toy.resumed_world.
Proof.
  split; [by intros [=]|].
  apply (relaunch_after_completion (Toy.cfg 1) Toy.resumed_world Toy.ckpt1);
    first [reflexivity | vm_compute; reflexivity | by intros [=]].
Defined.

(** X12, on the toy trainer with two epochs of two batches. *)
Lemma run_completes_witness :
  is_Some (model (Toy.trainer 2)) ∧
  loader (dataloader_of (Toy.trainer 2)) ≠ [] ∧
  max_epoch (config_of (Toy.trainer 2)) = current_epoch (Toy.trainer 2) + Z.of_nat 2 ∧
  no_sigint_within (2 * length (loader (dataloader_of (Toy.trainer 2)))) Toy.started_world ∧
  exists a' w',
    run (Toy.trainer 2) Toy.started_world = (Ok tt, a', w') ∧
    current_epoch a' = max_epoch (config_of (Toy.trainer 2)) - 1 ∧
    current_iteration a' =
      current_iteration (Toy.trainer 2)
      + Z.of_nat (2 * length (loader (dataloader_of (Toy.trainer 2)))) ∧
    disk w' !! ckpt_path (Toy.trainer 2) "checkpoint.pth.tar"
      = Some (Pickled (state_of a')) ∧
    epoch (state_of a') = max_epoch (config_of (Toy.trainer 2)) ∧
    length (fs_log w') = (length (fs_log Toy.started_world) + 2 * 2)%nat.
Proof.
  split; [by eexists|]. split; [done|]. split; [reflexivity|]. split; [exact I|].
  apply (run_completes (Toy.trainer 2) Toy.started_world 1);
    first [by eexists | done | reflexivity | exact I].
Defined.

(** X13, on the toy trainer with one epoch of the batches 0 and 1. *)
Lemma short_epoch_one_telemetry_block_witness :
  is_Some (model (Toy.trainer 1)) ∧
  loader (dataloader_of (Toy.trainer 1)) = [0; 1]%nat ∧
  (length [1%nat] < 100)%nat ∧ no_sigint_within 1 Toy.started_world ∧
  summary (world_after train_one_epoch (Toy.trainer 1) Toy.started_world) =
    summary Toy.started_world
    ++ step_telemetry 0 (Batch 0) (Toy.trainer 1) Toy.started_world.
Proof.
  split; [by eexists|]. split; [reflexivity|]. split; [simpl; lia|]. split; [exact I|].
  apply (short_epoch_one_telemetry_block (Toy.trainer 1) Toy.started_world 0%nat [1%nat]);
    first [by eexists | reflexivity | simpl; lia | exact I].
Defined.

(** X15, on the toy configuration in an empty directory. *)
Lemma init_seeds_after_fixed_noise_witness :
  __init__ (Toy.cfg 1) Toy.fresh_world = (Ok (Toy.constructed 1), Toy.started_world) ∧
  manual_seed (Toy.constructed 1) = Some (randint_1_10000 Toy.fresh_world) ∧
  torch_rng Toy.started_world = rng_manual_seed (randint_1_10000 Toy.fresh_world) ∧
  fixed_noise (Toy.constructed 1) =
    Randn (torch_rng Toy.fresh_world)
      [batch_size_cfg (Toy.cfg 1); g_input_size (Toy.cfg 1); 1; 1].
Proof.
  split; [reflexivity|].
  apply (init_seeds_after_fixed_noise (Toy.cfg 1) Toy.fresh_world
           (Toy.constructed 1) Toy.started_world); reflexivity.
Defined.

(** X5, on the toy trainer. *)
Lemma save_checkpoint_onto_best_raises_witness :
  1 ≠ 0 ∧
  result_of (save_checkpoint "model_best.pth.tar" 1) (Toy.trainer 1) Toy.started_world
    = Raise SameFileError ∧
  agent_after (save_checkpoint "model_best.pth.tar" 1) (Toy.trainer 1) Toy.started_world
    = Toy.trainer 1 ∧
  disk (world_after (save_checkpoint "model_best.pth.tar" 1)
          (Toy.trainer 1) Toy.started_world)
    = <[best_path (Toy.trainer 1) := Pickled (state_of (Toy.trainer 1))]>
        (disk Toy.started_world).
Proof.
  split; [lia|].
  apply (save_checkpoint_onto_best_raises 1 (Toy.trainer 1) Toy.started_world). lia.
Defined.

(** C6, on the toy configuration: the constructor returns with the first
    draw as the evaluation noise, and the first epoch of the toy trainer
    writes a generated-sample image made from its evaluation noise. *)
Lemma fixed_noise_sampled_once_witness :
  (exists a0 w0',
     __init__ (Toy.cfg 1) Toy.fresh_world = (Ok a0, w0') ∧
     fixed_noise a0 =
       Randn (torch_rng Toy.fresh_world)
         [batch_size_cfg (Toy.cfg 1); g_input_size (Toy.cfg 1); 1; 1]) ∧
  (exists p,
     Image (GeneratedImage 0)
       (Detach (Forward NetG p (fixed_noise (Toy.trainer 1))))
       (current_iteration (Toy.trainer 1) + 0 + 1)
     ∈ summary (world_after train_one_epoch (Toy.trainer 1) Toy.started_world)).
Proof.
  destruct (fixed_noise_sampled_once (Toy.cfg 1) Toy.fresh_world
              (Toy.trainer 1) Toy.started_world "checkpoint.pth.tar" 0
              0 0%nat locals_init)
    as (Hinit & _ & _ & _ & _ & _ & _ & _ & Hepoch).
  split.
  - apply Hinit; [reflexivity|reflexivity|done].
  - apply Hepoch; [by eexists|vm_compute; split; [discriminate|reflexivity]|reflexivity].
Defined.

(** C8, on the toy trainer: its epoch of two batches writes the block of
    the step of index 0 and no other, and in an epoch of 250 steps the
    step of index 100 writes a block stamped 101. *)
Lemma telemetry_on_every_100th_batch_witness :
  map record_key
    (summary (world_after train_one_epoch (Toy.trainer 1) Toy.started_world))
  = block_keys 0 1 ∧
  (RealImage 100, 101) ∈ telemetry_keys 0 0 250.
Proof.
  destruct (telemetry_on_every_100th_batch 0 0%nat locals_init
              (Toy.trainer 1) Toy.started_world)
    as (_ & _ & _ & Hepoch & Hkeys).
  split.
  - rewrite Hepoch by (by eexists). reflexivity.
  - apply Hkeys. repeat split; try lia; reflexivity.
Defined.
